(** * library-api: book records over a relational table

    A shallow embedding of the storage accessor ([db/db.go]), the request
    handlers ([handlers/book_handler.go]) and the record types
    ([models/book.go]) of the library API, together with the properties of
    its specification.

    Conventions of the embedding.
    - Go's [int] is the 64-bit two's complement integer of the platforms the
      service is built for; it is a [Z] and every operation that can leave
      the range is wrapped by [GoInt.wrap].
    - Strings are sequences of 8-bit code units.  Whitespace, letter case and
      column lengths are those of the ASCII range; the collation's treatment
      of characters outside it is not modelled.
    - The relational engine is outside the repository.  Its part is given by
      [Module sql]: one table with the columns of the schema in
      [RunMigrations], the statements that [db.go] issues as a small syntax,
      and their meaning on the table.  The connection never fails; a
      statement fails only where the schema or the engine refuses it.
    - Library calls of the handlers ([strconv.Atoi], [strings.TrimSpace],
      [math.Ceil] on [float64]) are modelled from their documentation. *)

From Stdlib Require Import ZArith List String Ascii Bool Lia.
From Stdlib Require Import Sorting.Sorted Sorting.Permutation.
Import ListNotations.

Local Open Scope string_scope.
Local Open Scope Z_scope.

(** ** Go's machine integers *)

Module GoInt.

Definition min_int : Z := - 2 ^ 63.
Definition max_int : Z := 2 ^ 63 - 1.

(** Two's complement wrap-around of a mathematical integer into [int]. *)
Definition wrap (z : Z) : Z := (z + 2 ^ 63) mod 2 ^ 64 - 2 ^ 63.

Definition in_range (z : Z) : bool := (min_int <=? z) && (z <=? max_int).

Definition sub (a b : Z) : Z := wrap (a - b).
Definition mul (a b : Z) : Z := wrap (a * b).

End GoInt.

(** ** [strings.TrimSpace] *)

Module strings.

(** The ASCII white space of [unicode.IsSpace]: tab, line feed, vertical
    tab, form feed, carriage return and space. *)
Definition is_space (c : ascii) : bool :=
  let n := N_of_ascii c in
  ((9 <=? n) && (n <=? 13) || (n =? 32))%N.

Fixpoint trim_left (l : list ascii) : list ascii :=
  match l with
  | [] => []
  | c :: l' => if is_space c then trim_left l' else l
  end.

Definition trim_right (l : list ascii) : list ascii :=
  rev (trim_left (rev l)).

Definition TrimSpace (s : string) : string :=
  string_of_list_ascii (trim_right (trim_left (list_ascii_of_string s))).

End strings.

(** ** [strconv.Atoi] *)

Module strconv.

Definition digit_val (c : ascii) : option Z :=
  let n := Z.of_N (N_of_ascii c) in
  if (48 <=? n) && (n <=? 57) then Some (n - 48) else None.

Fixpoint parse_digits (l : list ascii) (acc : Z) : option Z :=
  match l with
  | [] => Some acc
  | c :: l' =>
      match digit_val c with
      | Some d => parse_digits l' (10 * acc + d)
      | None => None
      end
  end.

(** An optional sign, then one or more decimal digits; [None] stands for
    the syntax error and for the range error alike. *)
Definition Atoi (s : string) : option Z :=
  match list_ascii_of_string s with
  | [] => None
  | c :: rest =>
      let '(neg, ds) :=
        if Ascii.eqb c "-" then (true, rest)
        else if Ascii.eqb c "+" then (false, rest)
        else (false, c :: rest) in
      match ds with
      | [] => None
      | _ :: _ =>
          match parse_digits ds 0 with
          | None => None
          | Some n =>
              let v := if neg : bool then - n else n in
              if GoInt.in_range v then Some v else None
          end
      end
  end.

End strconv.

(** ** The [float64] arithmetic behind the page count

    Only non-negative values occur: a count, a limit, their quotient and its
    ceiling.  Such a value is kept as a dyadic rational [mant / 2 ^ scale].
    Conversion from [int] and division round to nearest, ties to even, on a
    53-bit significand, as IEEE 754 binary64 does; exponents stay far
    from the ends of the exponent range. *)

Module float64.

Record t : Type := mk { mant : Z; scale : Z }.

Definition prec : Z := 53.

(** [n / d] rounded to the nearest integer, ties to even ([0 < d]). *)
Definition rne (n d : Z) : Z :=
  let q := n / d in
  let r := n mod d in
  if 2 * r <? d then q
  else if d <? 2 * r then q + 1
  else if Z.even q then q else q + 1.

(** [float64(n)] for [0 <= n]: exact below [2 ^ 53], rounded above. *)
Definition of_int (n : Z) : t :=
  if n <? 2 ^ prec then mk n 0
  else
    let sh := Z.log2 n + 1 - prec in
    mk (rne n (2 ^ sh)) (- sh).

(** [x / y] for [0 <= x] and [0 < y]: the scale [k] is chosen so that the
    exact quotient times [2 ^ k] lies in [[2 ^ 52, 2 ^ 53)], and the
    significand is that number rounded. *)
Definition div (x y : t) : t :=
  if mant x =? 0 then mk 0 0
  else
    let k0 := prec + Z.log2 (mant y) - Z.log2 (mant x) in
    let k := if 2 ^ prec * mant y <=? mant x * 2 ^ k0 then k0 - 1 else k0 in
    mk (rne (mant x * 2 ^ k) (mant y)) (k + scale x - scale y).

(** [math.Ceil], followed by the conversion [int(...)] of an integral
    value. *)
Definition Ceil_int (x : t) : Z :=
  if 0 <=? scale x
  then (mant x + 2 ^ scale x - 1) / 2 ^ scale x
  else mant x * 2 ^ (- scale x).

End float64.

(** ** [models/book.go] *)

Module models.

(** [time.Time] values are the engine's [TIMESTAMP]s: whole seconds. *)
Definition Time : Type := Z.

Module Book.
Record t : Type := mk {
  ID : Z;
  Title : string;
  Author : string;
  PublishedYear : Z;
  Available : bool;
  CreatedAt : Time;
  UpdatedAt : Time
}.
End Book.

(** A [*bool] is an [option bool]: [nil] is [None]. *)
Module CreateBookRequest.
Record t : Type := mk {
  Title : string;
  Author : string;
  PublishedYear : Z;
  Available : option bool
}.
End CreateBookRequest.

Module UpdateBookRequest.
Record t : Type := mk {
  Title : option string;
  Author : option string;
  PublishedYear : option Z;
  Available : option bool
}.
End UpdateBookRequest.

(** [Data interface{}] holds nothing or the pointer to one record. *)
Module APIResponse.
Record t : Type := mk {
  Success : bool;
  Data : option Book.t;
  Error : string;
  Message : string
}.
End APIResponse.

Module Pagination.
Record t : Type := mk {
  Page : Z;
  Limit : Z;
  Total : Z;
  TotalPages : Z
}.
End Pagination.

Module PaginatedResponse.
Record t : Type := mk {
  Success : bool;
  Data : list Book.t;
  Pagination : Pagination.t;
  Error : string
}.
End PaginatedResponse.

End models.

Import models.

(** ** The relational engine *)

Module sql.

(** [sql.ErrNoRows], every other error of the driver, and an error
    wrapped with a message, which is no longer equal to the one inside. *)
Inductive error : Type :=
| ErrNoRows
| ErrEngine (msg : string)
| Wrapped (msg : string) (e : error).   (* fmt.Errorf("msg: %w", e) *)

Inductive result (A : Type) : Type :=
| Ok (a : A)
| Err (e : error).
Arguments Ok {A} a.
Arguments Err {A} e.

(** The columns a client may write. *)
Inductive Column : Type :=
| title | author | published_year | available.

(** A positional argument of a statement ([interface{}]). *)
Inductive Value : Type :=
| VString (s : string)
| VInt (z : Z)
| VBool (b : bool).

(** The statements of [db.go], with [?] placeholders left open.
    [UpdateSet cols] is [UPDATE books SET c1 = ?, ..., cn = ?,
    updated_at = CURRENT_TIMESTAMP WHERE id = ?]; the two page queries end
    in [ORDER BY created_at DESC LIMIT ? OFFSET ?]. *)
Inductive Stmt : Type :=
| CountAll
| CountLike
| PageAll
| PageLike
| SelectByID
| InsertBook
| UpdateSet (cols : list Column)
| DeleteByID.

Definition is_write (s : Stmt) : bool :=
  match s with
  | InsertBook | UpdateSet _ | DeleteByID => true
  | _ => false
  end.

(** The table [books], the counter of [AUTO_INCREMENT], the engine's
    clock ([CURRENT_TIMESTAMP], whole seconds), whether the session runs
    in strict SQL mode, and the statements received so far, newest
    first. *)
Record DB : Type := mkDB {
  rows : list Book.t;
  auto_increment : Z;
  clock : Time;
  strict : bool;
  log : list (Stmt * list Value)
}.

(** [id INT]: the largest identifier the column holds. *)
Definition INT_MAX : Z := 2147483647.

(** [VARCHAR(255)] *)
Definition VARCHAR_MAX : nat := 255.

(** *** LIKE under a case-insensitive collation *)

Definition to_lower (c : ascii) : ascii :=
  let n := N_of_ascii c in
  if ((65 <=? n) && (n <=? 90))%N then ascii_of_N (n + 32) else c.

Definition ci_eqb (c d : ascii) : bool := Ascii.eqb (to_lower c) (to_lower d).

Inductive tok : Type :=
| Any           (* % : any sequence of characters *)
| One           (* _ : exactly one character *)
| Lit (c : ascii).

(** Reading a pattern: [%] and [_] are wildcards, a backslash makes the
    next character literal. *)
Fixpoint compile (p : list ascii) : list tok :=
  match p with
  | [] => []
  | c :: p' =>
      if Ascii.eqb c "\" then
        match p' with
        | [] => [Lit c]
        | d :: p'' => Lit d :: compile p''
        end
      else if Ascii.eqb c "%" then Any :: compile p'
      else if Ascii.eqb c "_" then One :: compile p'
      else Lit c :: compile p'
  end.

Fixpoint matches (p : list tok) (s : list ascii) {struct p} : bool :=
  match p with
  | [] => match s with [] => true | _ :: _ => false end
  | Any :: p' =>
      (fix star (s : list ascii) : bool :=
         matches p' s ||
         match s with [] => false | _ :: s' => star s' end) s
  | One :: p' =>
      match s with [] => false | _ :: s' => matches p' s' end
  | Lit c :: p' =>
      match s with
      | [] => false
      | d :: s' => ci_eqb c d && matches p' s'
      end
  end.

Definition like (s pat : string) : bool :=
  matches (compile (list_ascii_of_string pat)) (list_ascii_of_string s).

(** *** ORDER BY created_at DESC, LIMIT and OFFSET

    Rows with equal [created_at] come in an order of the engine's choice;
    here they keep the order of the table. *)

Fixpoint insert_desc (b : Book.t) (l : list Book.t) : list Book.t :=
  match l with
  | [] => [b]
  | x :: l' =>
      if Book.CreatedAt x <? Book.CreatedAt b then b :: l
      else x :: insert_desc b l'
  end.

Definition order_by_created_at_desc (l : list Book.t) : list Book.t :=
  fold_right insert_desc [] l.

Fixpoint offset {A : Type} (n : Z) (l : list A) : list A :=
  match l with
  | [] => []
  | _ :: l' => if n <=? 0 then l else offset (n - 1) l'
  end.

Fixpoint limit {A : Type} (n : Z) (l : list A) : list A :=
  match l with
  | [] => []
  | x :: l' => if n <=? 0 then [] else x :: limit (n - 1) l'
  end.

Definition count {A : Type} (l : list A) : Z := Z.of_nat (List.length l).

(** *** Column constraints *)

(** A string for a [VARCHAR(255)] column: refused in strict mode when it
    is longer, cut to the column's length otherwise. *)
Definition varchar (strict : bool) (s : string) : result string :=
  if (String.length s <=? VARCHAR_MAX)%nat then Ok s
  else if strict then Err (ErrEngine "Data too long for column")
  else Ok (substring 0 VARCHAR_MAX s).

Definition assign (strict : bool) (b : Book.t) (c : Column) (v : Value)
  : result Book.t :=
  match c, v with
  | title, VString s =>
      match varchar strict s with
      | Ok s' =>
          Ok (Book.mk (Book.ID b) s' (Book.Author b) (Book.PublishedYear b)
                (Book.Available b) (Book.CreatedAt b) (Book.UpdatedAt b))
      | Err e => Err e
      end
  | author, VString s =>
      match varchar strict s with
      | Ok s' =>
          Ok (Book.mk (Book.ID b) (Book.Title b) s' (Book.PublishedYear b)
                (Book.Available b) (Book.CreatedAt b) (Book.UpdatedAt b))
      | Err e => Err e
      end
  | published_year, VInt y =>
      Ok (Book.mk (Book.ID b) (Book.Title b) (Book.Author b) y
            (Book.Available b) (Book.CreatedAt b) (Book.UpdatedAt b))
  | available, VBool a =>
      Ok (Book.mk (Book.ID b) (Book.Title b) (Book.Author b)
            (Book.PublishedYear b) a (Book.CreatedAt b) (Book.UpdatedAt b))
  | _, _ => Err (ErrEngine "Incorrect value for column")
  end.

(** The SET clause, left to right, on one row; one value per column. *)
Fixpoint assign_all (strict : bool) (b : Book.t)
    (cols : list Column) (vals : list Value) : result Book.t :=
  match cols, vals with
  | [], [] => Ok b
  | c :: cols', v :: vals' =>
      match assign strict b c v with
      | Ok b' => assign_all strict b' cols' vals'
      | Err e => Err e
      end
  | _, _ => Err (ErrEngine "Incorrect number of arguments")
  end.

Definition touch (now : Time) (b : Book.t) : Book.t :=
  Book.mk (Book.ID b) (Book.Title b) (Book.Author b) (Book.PublishedYear b)
    (Book.Available b) (Book.CreatedAt b) now.

(** The rows of an UPDATE: every row with the identifier gets the SET
    clause and the current time; an error on one row fails the
    statement. *)
Fixpoint update_rows (strict : bool) (now : Time) (cols : list Column)
    (vals : list Value) (id : Z) (l : list Book.t) : result (list Book.t) :=
  match l with
  | [] => Ok []
  | b :: l' =>
      match update_rows strict now cols vals id l' with
      | Err e => Err e
      | Ok l'' =>
          if Book.ID b =? id then
            match assign_all strict b cols vals with
            | Ok b' => Ok (touch now b' :: l'')
            | Err e => Err e
            end
          else Ok (b :: l'')
      end
  end.

(** *** Running a statement

    A computation on the connection returns a value or an error and the
    database after it. *)

Definition M (A : Type) : Type := DB -> result A * DB.

Definition ret {A : Type} (a : A) : M A := fun d => (Ok a, d).

(** Sequencing; an error of the first part leaves, wrapped by [w]. *)
Definition bind_or {A B : Type} (m : M A) (w : error -> error)
    (k : A -> M B) : M B :=
  fun d =>
    match m d with
    | (Ok a, d') => k a d'
    | (Err e, d') => (Err (w e), d')
    end.

Definition received (q : Stmt) (args : list Value) (d : DB) : DB :=
  mkDB (rows d) (auto_increment d) (clock d) (strict d) ((q, args) :: log d).

Definition with_rows (l : list Book.t) (d : DB) : DB :=
  mkDB l (auto_increment d) (clock d) (strict d) (log d).

Definition bad_arguments {A : Type} : result A :=
  Err (ErrEngine "Incorrect arguments to statement").

(** [WHERE title LIKE ? OR author LIKE ?] *)
Definition title_or_author_like (p1 p2 : string) (b : Book.t) : bool :=
  like (Book.Title b) p1 || like (Book.Author b) p2.

(** [db.QueryRow(q, args...).Scan(&total)] for the two counting queries. *)
Definition QueryRowCount (q : Stmt) (args : list Value) : M Z :=
  fun d =>
    let d' := received q args d in
    match q, args with
    | CountAll, [] => (Ok (count (rows d)), d')
    | CountLike, [VString p1; VString p2] =>
        (Ok (count (filter (title_or_author_like p1 p2) (rows d))), d')
    | _, _ => (bad_arguments, d')
    end.

(** [ORDER BY created_at DESC LIMIT l OFFSET o]; the engine refuses a
    negative bound. *)
Definition page_of (l o : Z) (rs : list Book.t) : result (list Book.t) :=
  if (l <? 0) || (o <? 0)
  then Err (ErrEngine "Incorrect arguments to LIMIT")
  else Ok (limit l (offset o (order_by_created_at_desc rs))).

(** [db.Query(q, args...)] and the loop over [rows.Next()]. *)
Definition Query (q : Stmt) (args : list Value) : M (list Book.t) :=
  fun d =>
    let d' := received q args d in
    match q, args with
    | PageAll, [VInt l; VInt o] => (page_of l o (rows d), d')
    | PageLike, [VString p1; VString p2; VInt l; VInt o] =>
        (page_of l o (filter (title_or_author_like p1 p2) (rows d)), d')
    | _, _ => (bad_arguments, d')
    end.

(** [db.QueryRow(q, id).Scan(&book...)]: [ErrNoRows] without a row. *)
Definition QueryRowBook (q : Stmt) (args : list Value) : M Book.t :=
  fun d =>
    let d' := received q args d in
    match q, args with
    | SelectByID, [VInt id] =>
        match find (fun b => Book.ID b =? id) (rows d) with
        | Some b => (Ok b, d')
        | None => (Err ErrNoRows, d')
        end
    | _, _ => (bad_arguments, d')
    end.

(** The arguments of an UPDATE: the values of the SET clause, then the
    identifier. *)
Definition split_id (args : list Value) : option (list Value * Z) :=
  match rev args with
  | VInt id :: vals => Some (rev vals, id)
  | _ => None
  end.

(** [db.Exec(q, args...)]; the value is [LastInsertId()].  An INSERT
    takes the next identifier and the current time for both timestamps
    (the columns' defaults); it is refused once the identifiers of the
    [INT] column are used up. *)
Definition Exec (q : Stmt) (args : list Value) : M Z :=
  fun d =>
    let d' := received q args d in
    match q, args with
    | InsertBook, [VString t; VString a; VInt y; VBool av] =>
        match varchar (strict d) t, varchar (strict d) a with
        | Ok t', Ok a' =>
            let id := auto_increment d in
            if id <=? INT_MAX then
              (Ok id,
               mkDB (rows d ++ [Book.mk id t' a' y av (clock d) (clock d)])%list
                 (id + 1) (clock d) (strict d) (log d'))
            else (Err (ErrEngine "Out of range value for column"), d')
        | Err e, _ => (Err e, d')
        | _, Err e => (Err e, d')
        end
    | UpdateSet cols, _ =>
        match split_id args with
        | Some (vals, id) =>
            match update_rows (strict d) (clock d) cols vals id (rows d) with
            | Ok l => (Ok 0, with_rows l d')
            | Err e => (Err e, d')
            end
        | None => (bad_arguments, d')
        end
    | DeleteByID, [VInt id] =>
        (Ok 0, with_rows (filter (fun b => negb (Book.ID b =? id)) (rows d)) d')
    | _, _ => (bad_arguments, d')
    end.

(** Time passing on the engine's clock, between statements. *)
Definition tick (seconds : Z) (d : DB) : DB :=
  mkDB (rows d) (auto_increment d) (clock d + seconds) (strict d) (log d).

(** The table as [RunMigrations] creates it. *)
Definition empty (is_strict : bool) (now : Time) : DB :=
  mkDB [] 1 now is_strict [].

End sql.

Import sql.

(** ** [db/db.go] *)

Module db.

Notation "x <- m 'or' w ;; k" := (bind_or m w (fun x => k))
  (at level 61, m at next level, w at next level, right associativity).

(** GetBooks retrieves books with pagination *)
Definition GetBooks (page limit : Z) : M (list Book.t * Z) :=
  total <- QueryRowCount CountAll [] or Wrapped "failed to get total count" ;;
  let offset := GoInt.mul (GoInt.sub page 1) limit in
  books <- Query PageAll [VInt limit; VInt offset]
             or Wrapped "failed to query books" ;;
  ret (books, total).

(** GetBookByID retrieves a single book by ID; [Ok None] is the pair
    [(nil, nil)]. *)
Definition GetBookByID (id : Z) : M (option Book.t) :=
  fun d =>
    match QueryRowBook SelectByID [VInt id] d with
    | (Ok book, d') => (Ok (Some book), d')
    | (Err ErrNoRows, d') => (Ok None, d')
    | (Err e, d') => (Err (Wrapped "failed to get book" e), d')
    end.

(** CreateBook creates a new book *)
Definition CreateBook (req : CreateBookRequest.t) : M (option Book.t) :=
  let available :=
    match CreateBookRequest.Available req with
    | Some a => a
    | None => true
    end in
  id <- Exec InsertBook
          [VString (CreateBookRequest.Title req);
           VString (CreateBookRequest.Author req);
           VInt (CreateBookRequest.PublishedYear req);
           VBool available]
        or Wrapped "failed to create book" ;;
  GetBookByID id.

(** The fragments [c = ?] of the SET clause and their arguments, one pair
    for each field of the request that is not [nil], in the order of the
    source: [updates] holds the columns, [args] the values. *)
Definition build_update (req : UpdateBookRequest.t)
  : list Column * list Value :=
  let updates : list Column := [] in
  let args : list Value := [] in
  let '(updates, args) :=
    match UpdateBookRequest.Title req with
    | Some v => ((updates ++ [title])%list, (args ++ [VString v])%list)
    | None => (updates, args)
    end in
  let '(updates, args) :=
    match UpdateBookRequest.Author req with
    | Some v => ((updates ++ [author])%list, (args ++ [VString v])%list)
    | None => (updates, args)
    end in
  let '(updates, args) :=
    match UpdateBookRequest.PublishedYear req with
    | Some v => ((updates ++ [published_year])%list, (args ++ [VInt v])%list)
    | None => (updates, args)
    end in
  let '(updates, args) :=
    match UpdateBookRequest.Available req with
    | Some v => ((updates ++ [available])%list, (args ++ [VBool v])%list)
    | None => (updates, args)
    end in
  (updates, args).

(** UpdateBook updates an existing book.  The statement that is executed
    has all of [updates] in its SET clause, joined by commas. *)
Definition UpdateBook (id : Z) (req : UpdateBookRequest.t)
  : M (option Book.t) :=
  existing <- GetBookByID id or (fun e => e) ;;
  match existing with
  | None => ret None
  | Some _ =>
      let '(updates, args) := build_update req in
      if (List.length updates =? 0)%nat then ret existing
      else
        let args := (args ++ [VInt id])%list in
        _ <- Exec (UpdateSet updates) args
               or Wrapped "failed to update book" ;;
        GetBookByID id
  end.

(** DeleteBook deletes a book by ID *)
Definition DeleteBook (id : Z) : M unit :=
  existing <- GetBookByID id or (fun e => e) ;;
  match existing with
  | None => fun d => (Err ErrNoRows, d)
  | Some _ =>
      _ <- Exec DeleteByID [VInt id] or Wrapped "failed to delete book" ;;
      ret tt
  end.

(** SearchBooks searches for books by title or author *)
Definition SearchBooks (query : string) (page limit : Z)
  : M (list Book.t * Z) :=
  let searchTerm := "%" ++ query ++ "%" in
  total <- QueryRowCount CountLike [VString searchTerm; VString searchTerm]
             or Wrapped "failed to get total count" ;;
  let offset := GoInt.mul (GoInt.sub page 1) limit in
  books <- Query PageLike
             [VString searchTerm; VString searchTerm; VInt limit; VInt offset]
             or Wrapped "failed to search books" ;;
  ret (books, total).

End db.

(** ** [handlers/book_handler.go]

    A handler gets the strings of the URL and the decoded body ([None] when
    [json.NewDecoder(r.Body).Decode] fails) and answers with a status code
    and a JSON value; the [*sql.DB] of the [BookHandler] is the database
    that is threaded through. *)

Module handlers.

Definition StatusOK : Z := 200.
Definition StatusCreated : Z := 201.
Definition StatusBadRequest : Z := 400.
Definition StatusNotFound : Z := 404.
Definition StatusInternalServerError : Z := 500.

Inductive JSON : Type :=
| API (r : APIResponse.t)
| Paginated (r : PaginatedResponse.t).

Record Response : Type := mkResponse { StatusCode : Z; Body : JSON }.

Definition Handler : Type := DB -> Response * DB.

Definition sendJSONResponse (statusCode : Z) (data : JSON) : Response :=
  mkResponse statusCode data.

Definition sendErrorResponse (statusCode : Z) (message : string) : Response :=
  sendJSONResponse statusCode (API (APIResponse.mk false None message "")).

Definition is_empty (s : string) : bool := String.eqb s "".

(** GetBooks handles GET /api/v1/books *)
Definition GetBooks (pageStr limitStr q : string) : Handler :=
  fun d =>
    let searchQuery := strings.TrimSpace q in
    let page := 1 in
    let limit := 10 in
    let page :=
      if negb (is_empty pageStr) then
        match strconv.Atoi pageStr with
        | Some p => if 0 <? p then p else page
        | None => page
        end
      else page in
    let limit :=
      if negb (is_empty limitStr) then
        match strconv.Atoi limitStr with
        | Some l => if (0 <? l) && (l <=? 100) then l else limit
        | None => limit
        end
      else limit in
    let '(r, d') :=
      if negb (is_empty searchQuery)
      then db.SearchBooks searchQuery page limit d
      else db.GetBooks page limit d in
    match r with
    | Err _ =>
        (sendErrorResponse StatusInternalServerError
           "Failed to retrieve books", d')
    | Ok (books, total) =>
        let totalPages :=
          float64.Ceil_int
            (float64.div (float64.of_int total) (float64.of_int limit)) in
        (sendJSONResponse StatusOK
           (Paginated
              (PaginatedResponse.mk true books
                 (Pagination.mk page limit total totalPages) "")), d')
    end.

(** GetBook handles GET /api/v1/books/{id} *)
Definition GetBook (idStr : string) : Handler :=
  fun d =>
    match strconv.Atoi idStr with
    | None => (sendErrorResponse StatusBadRequest "Invalid book ID", d)
    | Some id =>
        match db.GetBookByID id d with
        | (Err _, d') =>
            (sendErrorResponse StatusInternalServerError
               "Failed to retrieve book", d')
        | (Ok None, d') =>
            (sendErrorResponse StatusNotFound "Book not found", d')
        | (Ok (Some book), d') =>
            (sendJSONResponse StatusOK
               (API (APIResponse.mk true (Some book) "" "")), d')
        end
    end.

(** CreateBook handles POST /api/v1/books *)
Definition CreateBook (body : option CreateBookRequest.t) : Handler :=
  fun d =>
    match body with
    | None => (sendErrorResponse StatusBadRequest "Invalid JSON payload", d)
    | Some req =>
        if is_empty (strings.TrimSpace (CreateBookRequest.Title req)) then
          (sendErrorResponse StatusBadRequest "Title is required", d)
        else if is_empty (strings.TrimSpace (CreateBookRequest.Author req))
        then (sendErrorResponse StatusBadRequest "Author is required", d)
        else if (CreateBookRequest.PublishedYear req <? 1000)
                || (2100 <? CreateBookRequest.PublishedYear req)
        then
          (sendErrorResponse StatusBadRequest
             "Published year must be between 1000 and 2100", d)
        else
          let req :=
            CreateBookRequest.mk
              (strings.TrimSpace (CreateBookRequest.Title req))
              (strings.TrimSpace (CreateBookRequest.Author req))
              (CreateBookRequest.PublishedYear req)
              (CreateBookRequest.Available req) in
          match db.CreateBook req d with
          | (Err _, d') =>
              (sendErrorResponse StatusInternalServerError
                 "Failed to create book", d')
          | (Ok book, d') =>
              (sendJSONResponse StatusCreated
                 (API (APIResponse.mk true book ""
                         "Book created successfully")), d')
          end
    end.

(** The checks of UpdateBook on the decoded body: the message of the
    first one that fails, or the request with its strings trimmed. *)
Definition validate_update (req : UpdateBookRequest.t)
  : string + UpdateBookRequest.t :=
  let check_title :=
    match UpdateBookRequest.Title req with
    | Some v =>
        let trimmed := strings.TrimSpace v in
        if is_empty trimmed then inl "Title cannot be empty"
        else inr (Some trimmed)
    | None => inr None
    end in
  match check_title with
  | inl m => inl m
  | inr reqTitle =>
      let check_author :=
        match UpdateBookRequest.Author req with
        | Some v =>
            let trimmed := strings.TrimSpace v in
            if is_empty trimmed then inl "Author cannot be empty"
            else inr (Some trimmed)
        | None => inr None
        end in
      match check_author with
      | inl m => inl m
      | inr reqAuthor =>
          let year_ok :=
            match UpdateBookRequest.PublishedYear req with
            | Some y => negb ((y <? 1000) || (2100 <? y))
            | None => true
            end in
          if year_ok then
            inr (UpdateBookRequest.mk reqTitle reqAuthor
                   (UpdateBookRequest.PublishedYear req)
                   (UpdateBookRequest.Available req))
          else inl "Published year must be between 1000 and 2100"
      end
  end.

(** UpdateBook handles PUT /api/v1/books/{id} *)
Definition UpdateBook (idStr : string) (body : option UpdateBookRequest.t)
  : Handler :=
  fun d =>
    match strconv.Atoi idStr with
    | None => (sendErrorResponse StatusBadRequest "Invalid book ID", d)
    | Some id =>
        match body with
        | None =>
            (sendErrorResponse StatusBadRequest "Invalid JSON payload", d)
        | Some req =>
            match validate_update req with
            | inl message => (sendErrorResponse StatusBadRequest message, d)
            | inr req =>
                match db.UpdateBook id req d with
                | (Err _, d') =>
                    (sendErrorResponse StatusInternalServerError
                       "Failed to update book", d')
                | (Ok None, d') =>
                    (sendErrorResponse StatusNotFound "Book not found", d')
                | (Ok (Some book), d') =>
                    (sendJSONResponse StatusOK
                       (API (APIResponse.mk true (Some book) ""
                               "Book updated successfully")), d')
                end
            end
        end
    end.

(** DeleteBook handles DELETE /api/v1/books/{id} *)
Definition DeleteBook (idStr : string) : Handler :=
  fun d =>
    match strconv.Atoi idStr with
    | None => (sendErrorResponse StatusBadRequest "Invalid book ID", d)
    | Some id =>
        match db.DeleteBook id d with
        | (Err ErrNoRows, d') =>
            (sendErrorResponse StatusNotFound "Book not found", d')
        | (Err _, d') =>
            (sendErrorResponse StatusInternalServerError
               "Failed to delete book", d')
        | (Ok _, d') =>
            (sendJSONResponse StatusOK
               (API (APIResponse.mk true None ""
                       "Book deleted successfully")), d')
        end
    end.

End handlers.

(** ** The words of the specification

    What the specification speaks of, stated on the data of the model: the
    ceiling of a quotient, containment of a string without regard to case,
    the parameters of a list request after defaulting, and the conditions
    on a table that every run of the service keeps. *)

(** The least [c] with [t <= c * l]. *)
Definition ceil_div (t l : Z) : Z := (t + l - 1) / l.

Fixpoint prefix_ci (q s : list ascii) : bool :=
  match q, s with
  | [], _ => true
  | _ :: _, [] => false
  | c :: q', d :: s' => ci_eqb c d && prefix_ci q' s'
  end.

Fixpoint substring_ci (q s : list ascii) : bool :=
  prefix_ci q s ||
  match s with
  | [] => false
  | _ :: s' => substring_ci q s'
  end.

(** [s] contains [q] as a substring, letters compared without case. *)
Definition contains_ci (s q : string) : bool :=
  substring_ci (list_ascii_of_string q) (list_ascii_of_string s).

(** The characters that LIKE does not take literally. *)
Definition wildcard (c : ascii) : bool :=
  Ascii.eqb c "%" || Ascii.eqb c "_" || Ascii.eqb c "\".

Definition literal (q : string) : bool :=
  forallb (fun c => negb (wildcard c)) (list_ascii_of_string q).

(** The records a search for [q] is to find. *)
Definition matched (q : string) (l : list Book.t) : list Book.t :=
  filter (fun b => contains_ci (Book.Title b) q || contains_ci (Book.Author b) q) l.

Definition newest_first (l : list Book.t) : Prop :=
  StronglySorted (fun a b => Book.CreatedAt b <= Book.CreatedAt a) l.

(** page: default 1, a value that is not a positive integer is ignored. *)
Definition effective_page (pageStr : string) : Z :=
  match strconv.Atoi pageStr with
  | Some p => if 0 <? p then p else 1
  | None => 1
  end.

(** limit: default 10, a value outside (0, 100] is ignored. *)
Definition effective_limit (limitStr : string) : Z :=
  match strconv.Atoi limitStr with
  | Some l => if (0 <? l) && (l <=? 100) then l else 10
  | None => 10
  end.

(** offset = (page - 1) * limit, as the machine computes it. *)
Definition page_offset (page limit : Z) : Z :=
  GoInt.mul (GoInt.sub page 1) limit.

(** The page of [l] that a request is answered with. *)
Definition page_slice (page limit : Z) (l : list Book.t) : list Book.t :=
  sql.limit limit (sql.offset (page_offset page limit) (order_by_created_at_desc l)).

(** What holds of the table in every state of the service: identifiers
    are distinct, positive and below the counter, the counter is within the
    [INT] column (one past it when used up), and no timestamp lies ahead of
    the clock. *)
Record wf (d : DB) : Prop := mk_wf {
  wf_nodup : NoDup (map Book.ID (rows d));
  wf_ids : Forall (fun b => 0 < Book.ID b < auto_increment d) (rows d);
  wf_counter : 1 <= auto_increment d <= INT_MAX + 1;
  wf_count : count (rows d) < auto_increment d;
  wf_times :
    Forall (fun b => Book.CreatedAt b <= Book.UpdatedAt b <= clock d) (rows d)
}.

(** The text columns of a record as the data model wants them. *)
Definition text_ok (b : Book.t) : Prop :=
  (1 <= String.length (Book.Title b) <= 255)%nat /\
  (1 <= String.length (Book.Author b) <= 255)%nat.

(** A request of the service, and the states it can be in: from a table
    whose text columns are in order, by requests and by time passing. *)
Inductive Request : Type :=
| List_ (pageStr limitStr q : string)
| Get (idStr : string)
| Create (body : option CreateBookRequest.t)
| Update (idStr : string) (body : option UpdateBookRequest.t)
| Delete (idStr : string).

Definition serve (r : Request) : handlers.Handler :=
  match r with
  | List_ p l q => handlers.GetBooks p l q
  | Get i => handlers.GetBook i
  | Create b => handlers.CreateBook b
  | Update i b => handlers.UpdateBook i b
  | Delete i => handlers.DeleteBook i
  end.

Inductive step : DB -> DB -> Prop :=
| step_request (r : Request) (d : DB) : step d (snd (serve r d))
| step_tick (seconds : Z) (d : DB) : 0 <= seconds -> step d (tick seconds d).

Inductive reachable (d0 : DB) : DB -> Prop :=
| reach_start : reachable d0 d0
| reach_step (d d' : DB) : reachable d0 d -> step d d' -> reachable d0 d'.

(** The fields of a record after an update with [req] at time [now]. *)
Definition supplied {A : Type} (o : option A) (old : A) : A :=
  match o with
  | Some v => v
  | None => old
  end.

Definition no_fields (req : UpdateBookRequest.t) : bool :=
  match UpdateBookRequest.Title req, UpdateBookRequest.Author req,
        UpdateBookRequest.PublishedYear req, UpdateBookRequest.Available req with
  | None, None, None, None => true
  | _, _, _, _ => false
  end.

Definition updated (req : UpdateBookRequest.t) (now : Time) (b : Book.t) : Book.t :=
  Book.mk (Book.ID b)
    (supplied (UpdateBookRequest.Title req) (Book.Title b))
    (supplied (UpdateBookRequest.Author req) (Book.Author b))
    (supplied (UpdateBookRequest.PublishedYear req) (Book.PublishedYear b))
    (supplied (UpdateBookRequest.Available req) (Book.Available b))
    (Book.CreatedAt b) now.

(** What a [VARCHAR(255)] column keeps of a string, and whether the
    engine takes the string at all. *)
Definition acceptable (is_strict : bool) (s : string) : bool :=
  (String.length s <=? VARCHAR_MAX)%nat || negb is_strict.

Definition store (s : string) : string :=
  if (String.length s <=? VARCHAR_MAX)%nat then s
  else substring 0 VARCHAR_MAX s.

Definition req_acceptable (is_strict : bool) (req : UpdateBookRequest.t) : bool :=
  match UpdateBookRequest.Title req with
  | Some v => acceptable is_strict v
  | None => true
  end &&
  match UpdateBookRequest.Author req with
  | Some v => acceptable is_strict v
  | None => true
  end.

Definition store_req (req : UpdateBookRequest.t) : UpdateBookRequest.t :=
  UpdateBookRequest.mk
    (option_map store (UpdateBookRequest.Title req))
    (option_map store (UpdateBookRequest.Author req))
    (UpdateBookRequest.PublishedYear req)
    (UpdateBookRequest.Available req).

Definition set_fields (req : UpdateBookRequest.t) (b : Book.t) : Book.t :=
  updated req (Book.UpdatedAt b) b.

(** The rows of the table after an update of the record [id] with [req]. *)
Definition rows_updated (req : UpdateBookRequest.t) (now : Time) (id : Z)
    (l : list Book.t) : list Book.t :=
  map (fun r => if Book.ID r =? id then updated req now r else r) l.

(** Two states with the same table, counter, clock and mode: they differ
    in the statements received at most. *)
Definition same_table (d d' : DB) : Prop :=
  rows d' = rows d /\ auto_increment d' = auto_increment d /\
  clock d' = clock d /\ strict d' = strict d.

(** The rows a list request selects: all of them, or those that the
    pattern built from the term matches. *)
Definition selected (searchQuery : string) (l : list Book.t) : list Book.t :=
  if handlers.is_empty searchQuery then l
  else
    let searchTerm := "%" ++ searchQuery ++ "%" in
    filter (title_or_author_like searchTerm searchTerm) l.

Definition list_ok (page lim : Z) (sel : list Book.t) : handlers.Response :=
  handlers.sendJSONResponse handlers.StatusOK
    (handlers.Paginated
       (PaginatedResponse.mk true (page_slice page lim sel)
          (Pagination.mk page lim (count sel)
             (float64.Ceil_int
                (float64.div (float64.of_int (count sel)) (float64.of_int lim))))
          "")).

Definition list_failed : handlers.Response :=
  handlers.sendErrorResponse handlers.StatusInternalServerError
    "Failed to retrieve books".

(** The record that an insert writes. *)
Definition inserted (req : CreateBookRequest.t) (d : DB) : Book.t :=
  Book.mk (auto_increment d)
    (store (CreateBookRequest.Title req))
    (store (CreateBookRequest.Author req))
    (CreateBookRequest.PublishedYear req)
    (supplied (CreateBookRequest.Available req) true)
    (clock d) (clock d).

(** The answers of the handlers that carry a record or report success. *)
Definition update_ok (b : Book.t) : handlers.Response :=
  handlers.sendJSONResponse handlers.StatusOK
    (handlers.API
       (APIResponse.mk true (Some b) "" "Book updated successfully")).

Definition created (b : Book.t) : handlers.Response :=
  handlers.sendJSONResponse handlers.StatusCreated
    (handlers.API
       (APIResponse.mk true (Some b) "" "Book created successfully")).

Definition deleted : handlers.Response :=
  handlers.sendJSONResponse handlers.StatusOK
    (handlers.API (APIResponse.mk true None "" "Book deleted successfully")).

Definition not_found : handlers.Response :=
  handlers.sendErrorResponse handlers.StatusNotFound "Book not found".

(** Valid input of the data model: a title and an author that are not
    blank and have at most 255 characters once trimmed, a year from 1000 to
    2100. *)
Definition valid_text (s : string) : bool :=
  negb (handlers.is_empty (strings.TrimSpace s))
  && (String.length (strings.TrimSpace s) <=? 255)%nat.

Definition valid_year (y : Z) : bool := (1000 <=? y) && (y <=? 2100).

Definition valid_create (req : CreateBookRequest.t) : bool :=
  valid_text (CreateBookRequest.Title req)
  && valid_text (CreateBookRequest.Author req)
  && valid_year (CreateBookRequest.PublishedYear req).

Definition when_supplied {A : Type} (p : A -> bool) (o : option A) : bool :=
  match o with
  | Some v => p v
  | None => true
  end.

Definition valid_update (req : UpdateBookRequest.t) : bool :=
  when_supplied valid_text (UpdateBookRequest.Title req)
  && when_supplied valid_text (UpdateBookRequest.Author req)
  && when_supplied valid_year (UpdateBookRequest.PublishedYear req).

(** The request with its strings trimmed, as the handler passes it on. *)
Definition trimmed (req : UpdateBookRequest.t) : UpdateBookRequest.t :=
  UpdateBookRequest.mk
    (option_map strings.TrimSpace (UpdateBookRequest.Title req))
    (option_map strings.TrimSpace (UpdateBookRequest.Author req))
    (UpdateBookRequest.PublishedYear req)
    (UpdateBookRequest.Available req).

Definition trimmed_create (req : CreateBookRequest.t) : CreateBookRequest.t :=
  CreateBookRequest.mk
    (strings.TrimSpace (CreateBookRequest.Title req))
    (strings.TrimSpace (CreateBookRequest.Author req))
    (CreateBookRequest.PublishedYear req)
    (CreateBookRequest.Available req).

(** The supplied strings of a request are not empty. *)
Definition nonblank (req : UpdateBookRequest.t) : Prop :=
  (forall v, UpdateBookRequest.Title req = Some v -> v <> "") /\
  (forall v, UpdateBookRequest.Author req = Some v -> v <> "").

(** What a request can do to the table: nothing, one more row, new values
    in the rows of one identifier, or the removal of these rows. *)
Inductive effect (d d' : DB) : Prop :=
| eff_same : same_table d d' -> effect d d'
| eff_insert (req : CreateBookRequest.t) :
    CreateBookRequest.Title req <> "" ->
    CreateBookRequest.Author req <> "" ->
    auto_increment d <= INT_MAX ->
    rows d' = (rows d ++ [inserted req d])%list ->
    auto_increment d' = auto_increment d + 1 ->
    clock d' = clock d -> strict d' = strict d ->
    effect d d'
| eff_update (req : UpdateBookRequest.t) (id : Z) :
    nonblank req ->
    rows d' = rows_updated (store_req req) (clock d) id (rows d) ->
    auto_increment d' = auto_increment d ->
    clock d' = clock d -> strict d' = strict d ->
    effect d d'
| eff_delete (id : Z) :
    rows d' = filter (fun x => negb (Book.ID x =? id)) (rows d) ->
    auto_increment d' = auto_increment d ->
    clock d' = clock d -> strict d' = strict d ->
    effect d d'.

(** ** Sample data

    The scenario of the specification: on an empty table in strict mode, at
    second 100, a book "Foo" by "Bar" of 2020 is created. *)

Definition foo_request : CreateBookRequest.t :=
  CreateBookRequest.mk "Foo" "Bar" 2020 None.

Definition shelf : DB :=
  snd (handlers.CreateBook (Some foo_request) (sql.empty true 100)).

Definition foo : Book.t := Book.mk 1 "Foo" "Bar" 2020 true 100 100.

Definition no_change : UpdateBookRequest.t :=
  UpdateBookRequest.mk None None None None.

Definition lend_out : UpdateBookRequest.t :=
  UpdateBookRequest.mk None None None (Some false).

(** A title of 256 characters. *)
Definition long_title : string := string_of_list_ascii (repeat "a"%char 256).

Definition long_request : CreateBookRequest.t :=
  CreateBookRequest.mk long_title "Bar" 2020 None.

(** ** Further notions, for the properties beyond the claims *)

(** What a request changes, with the request that did it: nothing; one
    more row, from a creation that passed the checks of the handler and of
    the engine; new values in the rows of one identifier, from an update
    of a record that exists; the removal of the rows of one identifier. *)
Inductive change : Request -> DB -> DB -> Prop :=
| ch_none (r : Request) (d d' : DB) :
    same_table d d' -> change r d d'
| ch_create (req : CreateBookRequest.t) (d d' : DB) :
    strings.TrimSpace (CreateBookRequest.Title req) <> "" ->
    strings.TrimSpace (CreateBookRequest.Author req) <> "" ->
    1000 <= CreateBookRequest.PublishedYear req <= 2100 ->
    acceptable (strict d) (strings.TrimSpace (CreateBookRequest.Title req))
    = true ->
    acceptable (strict d) (strings.TrimSpace (CreateBookRequest.Author req))
    = true ->
    auto_increment d <= INT_MAX ->
    rows d' = (rows d ++ [inserted (trimmed_create req) d])%list ->
    auto_increment d' = auto_increment d + 1 ->
    clock d' = clock d -> strict d' = strict d ->
    change (Create (Some req)) d d'
| ch_update (idStr : string) (id : Z) (req : UpdateBookRequest.t)
    (b : Book.t) (d d' : DB) :
    strconv.Atoi idStr = Some id ->
    handlers.validate_update req = inr (trimmed req) ->
    find (fun x => Book.ID x =? id) (rows d) = Some b ->
    no_fields req = false ->
    req_acceptable (strict d) (trimmed req) = true ->
    rows d' = rows_updated (store_req (trimmed req)) (clock d) id (rows d) ->
    auto_increment d' = auto_increment d ->
    clock d' = clock d -> strict d' = strict d ->
    change (Update idStr (Some req)) d d'
| ch_delete (idStr : string) (id : Z) (b : Book.t) (d d' : DB) :
    strconv.Atoi idStr = Some id ->
    find (fun x => Book.ID x =? id) (rows d) = Some b ->
    rows d' = filter (fun x => negb (Book.ID x =? id)) (rows d) ->
    auto_increment d' = auto_increment d ->
    clock d' = clock d -> strict d' = strict d ->
    change (Delete idStr) d d'.

(** The year of a record as the handlers let it in. *)
Definition year_ok (b : Book.t) : Prop :=
  1000 <= Book.PublishedYear b <= 2100.

(** Text without white space at its ends. *)
Definition trimmed_text (s : string) : Prop := strings.TrimSpace s = s.

Definition text_trimmed (b : Book.t) : Prop :=
  trimmed_text (Book.Title b) /\ trimmed_text (Book.Author b).

(** The envelope of an answer: a success carries status 200 or 201 and no
    error text; a failure carries status 400, 404 or 500, an error text,
    and neither data nor message. *)
Definition envelope_ok (r : handlers.Response) : Prop :=
  match handlers.Body r with
  | handlers.API a =>
      if APIResponse.Success a then
        (handlers.StatusCode r = 200 \/ handlers.StatusCode r = 201) /\
        APIResponse.Error a = ""
      else
        (handlers.StatusCode r = 400 \/ handlers.StatusCode r = 404 \/
         handlers.StatusCode r = 500) /\
        APIResponse.Data a = None /\
        APIResponse.Error a <> "" /\
        APIResponse.Message a = ""
  | handlers.Paginated p =>
      handlers.StatusCode r = 200 /\
      PaginatedResponse.Success p = true /\
      PaginatedResponse.Error p = ""
  end.

(** The statements a run has sent, none of them a write. *)
Definition only_reads (l : list (Stmt * list Value)) : bool :=
  forallb (fun s => negb (is_write (fst s))) l.

(** The records of a result of [db.GetBooks] or [db.SearchBooks]. *)
Definition books_of (r : result (list Book.t * Z)) : list Book.t :=
  match r with
  | Ok (books, _) => books
  | Err _ => []
  end.

(** The records of the pages 1 to [n] of a list request, in this order. *)
Definition list_pages (n : nat) (lim : Z) (d : DB) : list Book.t :=
  List.concat
    (map (fun p => books_of (fst (db.GetBooks (Z.of_nat p) lim d))) (seq 1 n)).

Definition search_pages (q : string) (n : nat) (lim : Z) (d : DB)
  : list Book.t :=
  List.concat
    (map (fun p => books_of (fst (db.SearchBooks q (Z.of_nat p) lim d)))
       (seq 1 n)).

(** A string with its capital letters made small. *)
Definition lower (s : string) : string :=
  string_of_list_ascii (map to_lower (list_ascii_of_string s)).

(** *** The text of the UPDATE statement

    [db.UpdateBook] keeps the fragments of the SET clause as strings and
    formats the statement twice: first from the fragment 0 and, in a loop,
    from the fragment 0 and the fragment [i]; then, "properly", from all
    fragments joined by commas.  The second text is the one executed. *)

Definition fragment (c : Column) : string :=
  match c with
  | title => "title = ?"
  | author => "author = ?"
  | published_year => "published_year = ?"
  | available => "available = ?"
  end.

(** [fmt.Sprintf("UPDATE books SET %s, updated_at = CURRENT_TIMESTAMP
    WHERE id = ?", clause)] *)
Definition sprintf_update (clause : string) : string :=
  "UPDATE books SET " ++ clause ++
  ", updated_at = CURRENT_TIMESTAMP WHERE id = ?".

(** The query after the first formatting and its loop (for a list of
    fragments that is not empty). *)
Definition first_query (updates : list string) : string :=
  match updates with
  | [] => ""
  | u0 :: rest =>
      fold_left (fun _ ui => sprintf_update (u0 ++ ", " ++ ui)) rest
        (sprintf_update u0)
  end.

(** The loop that joins the fragments: a comma before every fragment but
    the first. *)
Definition updateClause (updates : list string) : string :=
  snd (fold_left
         (fun st update =>
            let '(i, clause) := st in
            let clause := if (0 <? i)%nat then clause ++ ", " else clause in
            (S i, clause ++ update))
         updates (0%nat, "")).

(** The query that is executed. *)
Definition update_query (updates : list string) : string :=
  sprintf_update (updateClause updates).

(** The number of [?] in a statement. *)
Definition placeholders (query : string) : nat :=
  List.length
    (filter (fun c => Ascii.eqb c "?") (list_ascii_of_string query)).

(** The checks of the handlers on a body, as one test each: a title and
    an author that are not blank, a year from 1000 to 2100.  (The length of
    the strings is not among them.) *)
Definition not_blank (s : string) : bool :=
  negb (handlers.is_empty (strings.TrimSpace s)).

Definition checked_create (req : CreateBookRequest.t) : bool :=
  not_blank (CreateBookRequest.Title req)
  && not_blank (CreateBookRequest.Author req)
  && valid_year (CreateBookRequest.PublishedYear req).

Definition checked_update (req : UpdateBookRequest.t) : bool :=
  when_supplied not_blank (UpdateBookRequest.Title req)
  && when_supplied not_blank (UpdateBookRequest.Author req)
  && when_supplied valid_year (UpdateBookRequest.PublishedYear req).

(** The answer of [GetBook] that carries a record. *)
Definition get_ok (b : Book.t) : handlers.Response :=
  handlers.sendJSONResponse handlers.StatusOK
    (handlers.API (APIResponse.mk true (Some b) "" "")).

(** A token of a pattern with its letter made small. *)
Definition lower_tok (t : tok) : tok :=
  match t with
  | Lit c => Lit (to_lower c)
  | other => other
  end.

(** *** The sample data of the initialisation script

    [migrations/01_init.sql] creates the table and inserts ten books with
    one INSERT statement; the rows get consecutive identifiers and the
    time of the statement. *)
Definition sample_books : list (string * string * Z * bool) :=
  [("The Go Programming Language", "Alan Donovan, Brian Kernighan", 2015, true);
   ("Clean Code", "Robert C. Martin", 2008, true);
   ("Design Patterns", "Gang of Four", 1994, true);
   ("The Pragmatic Programmer", "Andy Hunt, Dave Thomas", 1999, false);
   ("Effective Go", "The Go Team", 2020, true);
   ("Database Design for Mere Mortals", "Michael J. Hernandez", 2013, true);
   ("RESTful Web APIs", "Leonard Richardson, Mike Amundsen", 2013, true);
   ("Docker Deep Dive", "Nigel Poulton", 2020, false);
   ("Microservices Patterns", "Chris Richardson", 2018, true);
   ("Building Microservices", "Sam Newman", 2015, true)].

Fixpoint insert_values (l : list (string * string * Z * bool)) (d : DB) : DB :=
  match l with
  | [] => d
  | (t, a, y, v) :: l' =>
      insert_values l'
        (snd (Exec InsertBook [VString t; VString a; VInt y; VBool v] d))
  end.

Definition initialised (is_strict : bool) (now : Time) : DB :=
  insert_values sample_books (sql.empty is_strict now).

(** The number of writes among the statements of a run. *)
Definition writes (l : list (Stmt * list Value)) : nat :=
  List.length (filter (fun s => is_write (fst s)) l).

(** ** Arithmetic of the page count *)

Lemma ceil_div_spec t l : 0 < l -> (ceil_div t l - 1) * l < t <= ceil_div t l * l.
Proof.
  intros Hl. unfold ceil_div.
  pose proof (Z.div_mod (t + l - 1) l ltac:(lia)) as E.
  pose proof (Z.mod_pos_bound (t + l - 1) l Hl) as B.
  nia.
Qed.

Lemma rne_bounds n d : 0 < d -> n / d <= float64.rne n d <= n / d + 1.
Proof.
  intros Hd. unfold float64.rne.
  destruct (2 * (n mod d) <? d); [lia|].
  destruct (d <? 2 * (n mod d)); [lia|].
  destruct (Z.even (n / d)); lia.
Qed.

Lemma rne_exact n d : 0 < d -> n mod d = 0 -> float64.rne n d = n / d.
Proof.
  intros Hd Hm. unfold float64.rne. rewrite Hm.
  destruct (2 * 0 <? d) eqn:E; [reflexivity|]. apply Z.ltb_ge in E. lia.
Qed.

Lemma ceil_of_rounded_quotient t l p :
  0 <= t -> 0 < l -> l < p ->
  (float64.rne (t * p) l + p - 1) / p = ceil_div t l.
Proof.
  intros Ht Hl Hp. unfold ceil_div.
  pose proof (Z.div_mod t l ltac:(lia)) as E.
  pose proof (Z.mod_pos_bound t l Hl) as B.
  set (a := t / l) in *. set (r := t mod l) in *.
  assert (Hq : (t * p) / l = a * p + (r * p) / l).
  { replace (t * p) with (r * p + (a * p) * l) by nia.
    rewrite Z.div_add by lia. lia. }
  assert (Hm : (t * p) mod l = (r * p) mod l).
  { replace (t * p) with (r * p + (a * p) * l) by nia.
    apply Z.mod_add. lia. }
  destruct (Z.eq_dec r 0) as [Hr|Hr].
  - rewrite rne_exact by (try lia; rewrite Hm, Hr; reflexivity).
    rewrite Hq, Hr. simpl. rewrite Z.div_0_l by lia.
    replace (a * p + 0 + p - 1) with ((p - 1) + a * p) by lia.
    rewrite Z.div_add by lia. rewrite Z.div_small by lia.
    replace (t + l - 1) with ((l - 1) + a * l) by lia.
    rewrite Z.div_add by lia. rewrite Z.div_small by lia. reflexivity.
  - pose proof (rne_bounds (t * p) l Hl) as Hb. rewrite Hq in Hb.
    assert (Hf : 1 <= (r * p) / l <= p - 1).
    { split.
      - apply Z.div_le_lower_bound; nia.
      - assert ((r * p) / l < p); [|lia].
        apply Z.div_lt_upper_bound; nia. }
    set (m := float64.rne (t * p) l) in *.
    replace (t + l - 1) with ((r - 1) + (a + 1) * l) by lia.
    rewrite Z.div_add by lia. rewrite (Z.div_small (r - 1)) by lia.
    symmetry. apply Z.div_unique with (r := m + p - 1 - (0 + (a + 1)) * p).
    + left. nia.
    + lia.
Qed.

Lemma total_pages_exact t l :
  0 <= t < 2 ^ 31 -> 1 <= l <= 100 ->
  float64.Ceil_int (float64.div (float64.of_int t) (float64.of_int l)) = ceil_div t l.
Proof.
  intros Ht Hl. unfold float64.of_int.
  assert (E1 : (t <? 2 ^ float64.prec) = true) by (apply Z.ltb_lt; unfold float64.prec; lia).
  assert (E2 : (l <? 2 ^ float64.prec) = true) by (apply Z.ltb_lt; unfold float64.prec; lia).
  rewrite E1, E2. unfold float64.div. cbn [float64.mant float64.scale].
  destruct (t =? 0) eqn:E0.
  - apply Z.eqb_eq in E0. subst t. unfold float64.Ceil_int, ceil_div.
    cbn [float64.mant float64.scale].
    rewrite (Z.div_small (0 + l - 1)) by lia. reflexivity.
  - apply Z.eqb_neq in E0.
    set (k0 := float64.prec + Z.log2 l - Z.log2 t).
    set (k := if 2 ^ float64.prec * l <=? t * 2 ^ k0 then k0 - 1 else k0).
    assert (Hk : 7 <= k).
    { assert (Z.log2 t < 31) by (apply Z.log2_lt_pow2; lia).
      pose proof (Z.log2_nonneg l). unfold float64.prec in *.
      subst k k0. destruct (_ <=? _); lia. }
    unfold float64.Ceil_int. cbn [float64.mant float64.scale].
    replace (k + 0 - 0) with k by lia.
    destruct (0 <=? k) eqn:Ek; [|apply Z.leb_gt in Ek; lia].
    apply ceil_of_rounded_quotient; try lia.
    assert (2 ^ 7 <= 2 ^ k) by (apply Z.pow_le_mono_r; lia).
    change (2 ^ 7) with 128 in *. lia.
Qed.

(** ** LIKE and literal search terms *)

Lemma list_ascii_of_string_app (s1 s2 : string) :
  list_ascii_of_string (s1 ++ s2)
  = (list_ascii_of_string s1 ++ list_ascii_of_string s2)%list.
Proof.
  induction s1 as [|c s1 IH]; simpl; [reflexivity|].
  now rewrite IH.
Qed.

Lemma matches_any (p : list tok) (s : list ascii) :
  matches (Any :: p) s
  = matches p s || match s with [] => false | _ :: s' => matches (Any :: p) s' end.
Proof. destruct s; reflexivity. Qed.

Lemma matches_any_only (s : list ascii) : matches [Any] s = true.
Proof.
  induction s as [|c s IH]; [reflexivity|].
  rewrite matches_any, IH. apply orb_true_r.
Qed.

Lemma matches_any_prefix (p : list tok) (s : list ascii) :
  matches (Any :: Any :: p) s = matches (Any :: p) s.
Proof.
  induction s as [|c s IH].
  - rewrite (matches_any (Any :: p)). apply orb_false_r.
  - rewrite (matches_any (Any :: p)), IH.
    rewrite (matches_any p (c :: s)).
    destruct (matches p (c :: s)), (matches (Any :: p) s); reflexivity.
Qed.

Lemma compile_literal (q rest : list ascii) :
  forallb (fun c => negb (wildcard c)) q = true ->
  compile (q ++ rest) = (map Lit q ++ compile rest)%list.
Proof.
  induction q as [|c q IH]; intros H; [reflexivity|].
  simpl in H. apply andb_true_iff in H as [Hc Hq].
  unfold wildcard in Hc. apply negb_true_iff in Hc.
  apply orb_false_iff in Hc as [Hc Hb]. apply orb_false_iff in Hc as [Hp Hu].
  cbn [app compile map]. rewrite Hb, Hp, Hu, (IH Hq). reflexivity.
Qed.

Lemma matches_literal_prefix (q s : list ascii) :
  matches (map Lit q ++ [Any]) s = prefix_ci q s.
Proof.
  revert s. induction q as [|c q IH]; intros s.
  - cbn [map app]. rewrite matches_any_only. reflexivity.
  - destruct s as [|d s]; [reflexivity|].
    cbn [map app matches prefix_ci]. now rewrite IH.
Qed.

Lemma matches_literal_substring (q s : list ascii) :
  matches (Any :: map Lit q ++ [Any]) s = substring_ci q s.
Proof.
  induction s as [|d s IH].
  - rewrite matches_any, matches_literal_prefix. reflexivity.
  - rewrite matches_any, matches_literal_prefix, IH. reflexivity.
Qed.

(** A term without wildcards is searched for as a substring. *)
Lemma like_literal (s q : string) :
  literal q = true -> like s ("%" ++ q ++ "%") = contains_ci s q.
Proof.
  intros H. unfold like, contains_ci.
  rewrite !list_ascii_of_string_app.
  change (list_ascii_of_string "%") with ["%"%char].
  change (["%"%char] ++ list_ascii_of_string q ++ ["%"%char])%list
    with ("%"%char :: (list_ascii_of_string q ++ ["%"%char]))%list.
  change (compile ("%"%char :: (list_ascii_of_string q ++ ["%"%char]))%list)
    with (Any :: compile (list_ascii_of_string q ++ ["%"%char])%list).
  rewrite (compile_literal _ _ H).
  apply matches_literal_substring.
Qed.

(** The term [%] is a pattern that every string matches. *)
Lemma like_percent (s : string) : like s ("%" ++ "%" ++ "%") = true.
Proof.
  unfold like.
  change (compile (list_ascii_of_string ("%" ++ "%" ++ "%")))
    with [Any; Any; Any].
  rewrite !matches_any_prefix. apply matches_any_only.
Qed.

(** ** Ordering and paging *)

Lemma insert_desc_perm (b : Book.t) (l : list Book.t) :
  Permutation (insert_desc b l) (b :: l).
Proof.
  induction l as [|x l IH]; simpl; [reflexivity|].
  destruct (Book.CreatedAt x <? Book.CreatedAt b); [reflexivity|].
  rewrite IH. apply perm_swap.
Qed.

Lemma order_by_perm (l : list Book.t) :
  Permutation (order_by_created_at_desc l) l.
Proof.
  induction l as [|b l IH]; simpl; [reflexivity|].
  rewrite insert_desc_perm. now constructor.
Qed.

Lemma insert_desc_sorted (b : Book.t) (l : list Book.t) :
  newest_first l -> newest_first (insert_desc b l).
Proof.
  unfold newest_first.
  induction l as [|x l IH]; intros H; simpl.
  - constructor; constructor.
  - inversion H as [|? ? Hl Hx]; subst.
    destruct (Book.CreatedAt x <? Book.CreatedAt b) eqn:E.
    + apply Z.ltb_lt in E. constructor; [assumption|].
      constructor; [lia|].
      eapply Forall_impl; [|exact Hx]. simpl. intros; lia.
    + apply Z.ltb_ge in E. constructor; [now apply IH|].
      eapply Permutation_Forall; [symmetry; apply insert_desc_perm|].
      constructor; assumption.
Qed.

Lemma order_by_sorted (l : list Book.t) :
  newest_first (order_by_created_at_desc l).
Proof.
  induction l as [|b l IH]; simpl.
  - constructor.
  - now apply insert_desc_sorted.
Qed.

Lemma In_offset {A : Type} (n : Z) (l : list A) (x : A) :
  In x (offset n l) -> In x l.
Proof.
  revert n. induction l as [|y l IH]; intros n H; simpl in *; [assumption|].
  destruct (n <=? 0); [assumption|]. right. eapply IH, H.
Qed.

Lemma In_limit {A : Type} (n : Z) (l : list A) (x : A) :
  In x (limit n l) -> In x l.
Proof.
  revert n. induction l as [|y l IH]; intros n H; simpl in *; [assumption|].
  destruct (n <=? 0); [contradiction|].
  destruct H as [H|H]; [now left|]. right. eapply IH, H.
Qed.

Lemma offset_sorted (n : Z) (l : list Book.t) :
  newest_first l -> newest_first (offset n l).
Proof.
  unfold newest_first. revert n.
  induction l as [|y l IH]; intros n H; simpl; [assumption|].
  destruct (n <=? 0); [assumption|].
  inversion H; subst. now apply IH.
Qed.

Lemma limit_sorted (n : Z) (l : list Book.t) :
  newest_first l -> newest_first (limit n l).
Proof.
  unfold newest_first. revert n.
  induction l as [|y l IH]; intros n H; simpl; [assumption|].
  destruct (n <=? 0); [constructor|].
  inversion H as [|? ? Hl Hy]; subst. constructor; [now apply IH|].
  rewrite Forall_forall in *. intros x Hx. apply Hy. eapply In_limit, Hx.
Qed.

Lemma offset_beyond {A : Type} (n : Z) (l : list A) :
  count l <= n -> offset n l = [].
Proof.
  unfold count. revert n.
  induction l as [|y l IH]; intros n H; simpl in *; [reflexivity|].
  destruct (n <=? 0) eqn:E; [apply Z.leb_le in E; lia|].
  apply IH. lia.
Qed.

Lemma page_slice_sorted (page lim : Z) (l : list Book.t) :
  newest_first (page_slice page lim l).
Proof.
  unfold page_slice. apply limit_sorted, offset_sorted, order_by_sorted.
Qed.

Lemma In_page_slice (page lim : Z) (l : list Book.t) (b : Book.t) :
  In b (page_slice page lim l) -> In b l.
Proof.
  unfold page_slice. intros H.
  apply In_limit, In_offset in H.
  eapply Permutation_in; [apply order_by_perm|exact H].
Qed.

Lemma count_order_by (l : list Book.t) :
  count (order_by_created_at_desc l) = count l.
Proof.
  unfold count. f_equal. apply Permutation_length, order_by_perm.
Qed.

(** ** Looking a record up by its identifier *)

Lemma find_by_id (l : list Book.t) (b : Book.t) :
  NoDup (map Book.ID l) -> In b l ->
  find (fun x => Book.ID x =? Book.ID b) l = Some b.
Proof.
  induction l as [|x l IH]; intros Hnd Hin; [contradiction|].
  simpl in Hnd. inversion Hnd as [|? ? Hx Hl]; subst.
  destruct Hin as [->|Hin]; simpl.
  - now rewrite Z.eqb_refl.
  - destruct (Book.ID x =? Book.ID b) eqn:E; [|now apply IH].
    apply Z.eqb_eq in E. exfalso. apply Hx. rewrite E. now apply in_map.
Qed.

Lemma find_id_absent (l : list Book.t) (id : Z) :
  Forall (fun b => Book.ID b <> id) l ->
  find (fun x => Book.ID x =? id) l = None.
Proof.
  induction 1 as [|x l Hx _ IH]; simpl; [reflexivity|].
  apply Z.eqb_neq in Hx. now rewrite Hx.
Qed.

Lemma find_id_app (l1 l2 : list Book.t) (id : Z) :
  find (fun x => Book.ID x =? id) l1 = None ->
  find (fun x => Book.ID x =? id) (l1 ++ l2)
  = find (fun x => Book.ID x =? id) l2.
Proof.
  induction l1 as [|x l1 IH]; simpl; [reflexivity|].
  destruct (Book.ID x =? id); [discriminate|assumption].
Qed.

Lemma find_id_deleted (l : list Book.t) (id : Z) :
  find (fun x => Book.ID x =? id)
    (filter (fun b => negb (Book.ID b =? id)) l) = None.
Proof.
  induction l as [|x l IH]; simpl; [reflexivity|].
  destruct (Book.ID x =? id) eqn:E; simpl; [assumption|].
  now rewrite E.
Qed.

Lemma find_id_map (g : Book.t -> Book.t) (l : list Book.t) (id : Z) :
  (forall b, Book.ID (g b) = Book.ID b) ->
  find (fun x => Book.ID x =? id) (map g l)
  = option_map g (find (fun x => Book.ID x =? id) l).
Proof.
  intros Hg. induction l as [|x l IH]; simpl; [reflexivity|].
  rewrite Hg. destruct (Book.ID x =? id); [reflexivity|assumption].
Qed.

(** ** The list request *)

Lemma handler_page (pageStr : string) :
  (if negb (handlers.is_empty pageStr) then
     match strconv.Atoi pageStr with
     | Some p => if 0 <? p then p else 1
     | None => 1
     end
   else 1) = effective_page pageStr.
Proof.
  unfold effective_page, handlers.is_empty.
  destruct (String.eqb_spec pageStr "") as [->|_]; reflexivity.
Qed.

Lemma handler_limit (limitStr : string) :
  (if negb (handlers.is_empty limitStr) then
     match strconv.Atoi limitStr with
     | Some l => if (0 <? l) && (l <=? 100) then l else 10
     | None => 10
     end
   else 10) = effective_limit limitStr.
Proof.
  unfold effective_limit, handlers.is_empty.
  destruct (String.eqb_spec limitStr "") as [->|_]; reflexivity.
Qed.

Lemma effective_page_pos (pageStr : string) : 1 <= effective_page pageStr.
Proof.
  unfold effective_page. destruct (strconv.Atoi pageStr) as [p|]; [|lia].
  destruct (0 <? p) eqn:E; [apply Z.ltb_lt in E|]; lia.
Qed.

Lemma effective_limit_range (limitStr : string) :
  1 <= effective_limit limitStr <= 100.
Proof.
  unfold effective_limit. destruct (strconv.Atoi limitStr) as [l|]; [|lia].
  destruct ((0 <? l) && (l <=? 100)) eqn:E; [|lia].
  apply andb_true_iff in E as [E1 E2].
  apply Z.ltb_lt in E1. apply Z.leb_le in E2. lia.
Qed.

(** The answer to a list request, in full. *)
Lemma GetBooks_response (pageStr limitStr q : string) (d : DB) :
  let page := effective_page pageStr in
  let lim := effective_limit limitStr in
  fst (handlers.GetBooks pageStr limitStr q d)
  = if page_offset page lim <? 0 then list_failed
    else list_ok page lim (selected (strings.TrimSpace q) (rows d)).
Proof.
  intros page lim. unfold handlers.GetBooks.
  rewrite handler_page, handler_limit. fold page lim.
  pose proof (effective_limit_range limitStr) as Hl. fold lim in Hl.
  assert (El : (lim <? 0) = false) by (apply Z.ltb_ge; lia).
  unfold selected.
  destruct (handlers.is_empty (strings.TrimSpace q)); cbn [negb].
  - unfold db.GetBooks, bind_or, QueryRowCount, Query, page_of, ret.
    cbn [rows received]. fold (page_offset page lim). rewrite El. cbn [orb].
    destruct (page_offset page lim <? 0); reflexivity.
  - unfold db.SearchBooks, bind_or, QueryRowCount, Query, page_of, ret.
    cbn [rows received]. fold (page_offset page lim). rewrite El. cbn [orb].
    destruct (page_offset page lim <? 0); reflexivity.
Qed.

(** ** Writing text columns *)

Lemma varchar_spec (is_strict : bool) (s : string) :
  varchar is_strict s
  = if acceptable is_strict s then Ok (store s)
    else Err (ErrEngine "Data too long for column").
Proof.
  unfold varchar, acceptable, store.
  destruct (String.length s <=? VARCHAR_MAX)%nat; [reflexivity|].
  destruct is_strict; reflexivity.
Qed.

Lemma store_fits (s : string) :
  (String.length s <= 255)%nat -> store s = s.
Proof.
  intros H. unfold store, VARCHAR_MAX.
  apply Nat.leb_le in H. now rewrite H.
Qed.

Lemma acceptable_fits (is_strict : bool) (s : string) :
  (String.length s <= 255)%nat -> acceptable is_strict s = true.
Proof.
  intros H. unfold acceptable, VARCHAR_MAX.
  apply Nat.leb_le in H. now rewrite H.
Qed.

Lemma length_substring_0 (n : nat) (s : string) :
  (n <= String.length s)%nat -> String.length (substring 0 n s) = n.
Proof.
  revert s. induction n as [|n IH]; intros s H.
  - destruct s; reflexivity.
  - destruct s as [|c s]; simpl in *; [lia|].
    rewrite IH; [reflexivity|lia].
Qed.

Lemma store_length (s : string) :
  (String.length (store s) <= 255)%nat /\
  (s <> "" -> store s <> "").
Proof.
  unfold store, VARCHAR_MAX.
  destruct (String.length s <=? 255)%nat eqn:E.
  - apply Nat.leb_le in E. auto.
  - apply Nat.leb_gt in E.
    rewrite length_substring_0 by lia. split; [lia|].
    intros _ H. apply (f_equal String.length) in H.
    rewrite length_substring_0 in H by lia. discriminate.
Qed.

(** ** The update statement *)

Lemma build_update_empty (req : UpdateBookRequest.t) :
  (List.length (fst (db.build_update req)) =? 0)%nat = no_fields req.
Proof. destruct req as [[t|] [a|] [y|] [v|]]; reflexivity. Qed.

Lemma assign_all_build (is_strict : bool) (b : Book.t)
    (req : UpdateBookRequest.t) :
  assign_all is_strict b (fst (db.build_update req)) (snd (db.build_update req))
  = if req_acceptable is_strict req then Ok (set_fields (store_req req) b)
    else Err (ErrEngine "Data too long for column").
Proof.
  destruct b as [i t0 a0 y0 v0 c0 u0].
  destruct req as [[t|] [a|] [y|] [v|]];
    unfold req_acceptable;
    cbn [db.build_update fst snd app assign_all assign
         UpdateBookRequest.Title UpdateBookRequest.Author
         UpdateBookRequest.PublishedYear UpdateBookRequest.Available];
    rewrite ?varchar_spec;
    repeat match goal with
      | |- context [acceptable ?m ?s] => destruct (acceptable m s)
      end;
    cbn [andb assign_all assign Book.ID Book.Title Book.Author
         Book.PublishedYear Book.Available Book.CreatedAt Book.UpdatedAt];
    rewrite ?varchar_spec;
    repeat match goal with
      | |- context [acceptable ?m ?s] => destruct (acceptable m s)
      end;
    reflexivity.
Qed.

Lemma split_id_app (vals : list Value) (id : Z) :
  split_id (vals ++ [VInt id]) = Some (vals, id).
Proof.
  unfold split_id. rewrite rev_unit, rev_involutive. reflexivity.
Qed.

Lemma update_rows_ok (is_strict : bool) (now : Time) (cols : list Column)
    (vals : list Value) (id : Z) (g : Book.t -> Book.t) (l : list Book.t) :
  (forall b, assign_all is_strict b cols vals = Ok (g b)) ->
  update_rows is_strict now cols vals id l
  = Ok (map (fun r => if Book.ID r =? id then touch now (g r) else r) l).
Proof.
  intros Hg. induction l as [|x l IH]; simpl; [reflexivity|].
  rewrite IH, Hg. destruct (Book.ID x =? id); reflexivity.
Qed.

Lemma update_rows_err (is_strict : bool) (now : Time) (cols : list Column)
    (vals : list Value) (id : Z) (e : error) (l : list Book.t) (b0 : Book.t) :
  (forall b, assign_all is_strict b cols vals = Err e) ->
  find (fun x => Book.ID x =? id) l = Some b0 ->
  update_rows is_strict now cols vals id l = Err e.
Proof.
  intros He. induction l as [|x l IH]; simpl; [discriminate|].
  intros Hf. destruct (Book.ID x =? id) eqn:E.
  - rewrite He. destruct (update_rows _ _ _ _ _ l) as [l'|e'] eqn:El.
    + reflexivity.
    + clear IH Hf. revert e' El. induction l as [|y l IHl]; simpl; intros e' El.
      * discriminate.
      * destruct (update_rows _ _ _ _ _ l) as [l'|e''] eqn:El'.
        -- rewrite He in El. destruct (Book.ID y =? id); [congruence|discriminate].
        -- injection El as <-. now apply IHl.
  - now rewrite IH.
Qed.

(** ** The storage accessor, operation by operation *)

Lemma GetBookByID_eq (id : Z) (d : DB) :
  db.GetBookByID id d
  = (Ok (find (fun x => Book.ID x =? id) (rows d)),
     received SelectByID [VInt id] d).
Proof.
  unfold db.GetBookByID, QueryRowBook.
  destruct (find _ (rows d)); reflexivity.
Qed.

Lemma find_id_eq (id : Z) (l : list Book.t) (b : Book.t) :
  find (fun x => Book.ID x =? id) l = Some b -> Book.ID b = id /\ In b l.
Proof.
  intros H. apply find_some in H as [Hin E]. apply Z.eqb_eq in E. auto.
Qed.

Lemma UpdateBook_missing (id : Z) (req : UpdateBookRequest.t) (d : DB) :
  find (fun x => Book.ID x =? id) (rows d) = None ->
  db.UpdateBook id req d = (Ok None, received SelectByID [VInt id] d).
Proof.
  intros H. unfold db.UpdateBook, bind_or.
  rewrite GetBookByID_eq, H. reflexivity.
Qed.

(** An update of a record that exists, in full. *)
Lemma UpdateBook_found (id : Z) (req : UpdateBookRequest.t) (d : DB)
    (b : Book.t) :
  find (fun x => Book.ID x =? id) (rows d) = Some b ->
  db.UpdateBook id req d
  = if no_fields req then (Ok (Some b), received SelectByID [VInt id] d)
    else
      let d1 :=
        received (UpdateSet (fst (db.build_update req)))
          (snd (db.build_update req) ++ [VInt id])
          (received SelectByID [VInt id] d) in
      if req_acceptable (strict d) req then
        (Ok (Some (updated (store_req req) (clock d) b)),
         received SelectByID [VInt id]
           (with_rows (rows_updated (store_req req) (clock d) id (rows d)) d1))
      else
        (Err (Wrapped "failed to update book"
                (ErrEngine "Data too long for column")), d1).
Proof.
  intros Hf. unfold db.UpdateBook, bind_or.
  rewrite GetBookByID_eq, Hf.
  pose proof (build_update_empty req) as He.
  pose proof (fun b => assign_all_build (strict d) b req) as Ha.
  destruct (db.build_update req) as [cols vals]. cbn [fst snd] in *.
  rewrite He. destruct (no_fields req); [reflexivity|].
  unfold Exec. rewrite split_id_app. cbn [rows clock strict received].
  destruct (req_acceptable (strict d) req).
  - rewrite (update_rows_ok _ _ _ _ _ _ _ Ha).
    rewrite GetBookByID_eq. cbn [rows with_rows].
    rewrite find_id_map by (intros r; destruct (Book.ID r =? id); reflexivity).
    rewrite Hf. cbn [option_map].
    destruct (find_id_eq _ _ _ Hf) as [Hid _].
    apply Z.eqb_eq in Hid. rewrite Hid. reflexivity.
  - rewrite (update_rows_err _ _ _ _ _ _ _ b Ha Hf). reflexivity.
Qed.

Lemma DeleteBook_found (id : Z) (d : DB) (b : Book.t) :
  find (fun x => Book.ID x =? id) (rows d) = Some b ->
  db.DeleteBook id d
  = (Ok tt,
     with_rows (filter (fun x => negb (Book.ID x =? id)) (rows d))
       (received DeleteByID [VInt id] (received SelectByID [VInt id] d))).
Proof.
  intros Hf. unfold db.DeleteBook, bind_or.
  rewrite GetBookByID_eq, Hf. reflexivity.
Qed.

Lemma DeleteBook_missing (id : Z) (d : DB) :
  find (fun x => Book.ID x =? id) (rows d) = None ->
  db.DeleteBook id d = (Err ErrNoRows, received SelectByID [VInt id] d).
Proof.
  intros Hf. unfold db.DeleteBook, bind_or.
  rewrite GetBookByID_eq, Hf. reflexivity.
Qed.

(** A creation, in full: refused by the engine, or one more row. *)
Lemma CreateBook_eq (req : CreateBookRequest.t) (d : DB) :
  Forall (fun b => Book.ID b <> auto_increment d) (rows d) ->
  let args :=
    [VString (CreateBookRequest.Title req);
     VString (CreateBookRequest.Author req);
     VInt (CreateBookRequest.PublishedYear req);
     VBool (supplied (CreateBookRequest.Available req) true)] in
  db.CreateBook req d
  = if acceptable (strict d) (CreateBookRequest.Title req)
       && acceptable (strict d) (CreateBookRequest.Author req)
       && (auto_increment d <=? INT_MAX)
    then
      (Ok (Some (inserted req d)),
       received SelectByID [VInt (auto_increment d)]
         (mkDB (rows d ++ [inserted req d]) (auto_increment d + 1) (clock d)
            (strict d) ((InsertBook, args) :: log d)))
    else
      (fst (db.CreateBook req d), received InsertBook args d).
Proof.
  intros Hids args. unfold db.CreateBook, bind_or, Exec.
  fold (supplied (CreateBookRequest.Available req) true). fold args.
  subst args. cbv beta iota.
  rewrite !varchar_spec.
  destruct (acceptable (strict d) (CreateBookRequest.Title req));
    destruct (acceptable (strict d) (CreateBookRequest.Author req));
    cbn [andb]; try reflexivity.
  destruct (auto_increment d <=? INT_MAX); [|reflexivity].
  rewrite GetBookByID_eq. cbn [rows received log].
  rewrite find_id_app by (now apply find_id_absent).
  cbn [find Book.ID]. rewrite Z.eqb_refl. reflexivity.
Qed.

Lemma CreateBook_refused (req : CreateBookRequest.t) (d : DB) :
  acceptable (strict d) (CreateBookRequest.Title req)
  && acceptable (strict d) (CreateBookRequest.Author req)
  && (auto_increment d <=? INT_MAX) = false ->
  exists e, fst (db.CreateBook req d) = Err e.
Proof.
  unfold db.CreateBook, bind_or, Exec. rewrite !varchar_spec.
  destruct (acceptable (strict d) (CreateBookRequest.Title req));
    destruct (acceptable (strict d) (CreateBookRequest.Author req));
    cbn [andb]; intros H; try (eexists; reflexivity).
  rewrite H. eexists; reflexivity.
Qed.

(** ** The handlers on a request body *)

Lemma is_empty_false (s : string) : handlers.is_empty s = false <-> s <> "".
Proof. unfold handlers.is_empty. apply String.eqb_neq. Qed.

Lemma valid_text_spec (s : string) :
  valid_text s = true ->
  handlers.is_empty (strings.TrimSpace s) = false /\
  (String.length (strings.TrimSpace s) <= 255)%nat.
Proof.
  unfold valid_text. intros H. apply andb_true_iff in H as [H1 H2].
  apply negb_true_iff in H1. apply Nat.leb_le in H2. auto.
Qed.

Lemma valid_year_spec (y : Z) :
  valid_year y = true -> (y <? 1000) || (2100 <? y) = false.
Proof.
  unfold valid_year. intros H. apply andb_true_iff in H as [H1 H2].
  apply Z.leb_le in H1. apply Z.leb_le in H2.
  apply orb_false_iff. split; apply Z.ltb_ge; lia.
Qed.

Lemma validate_update_valid (req : UpdateBookRequest.t) :
  valid_update req = true -> handlers.validate_update req = inr (trimmed req).
Proof.
  unfold valid_update, handlers.validate_update, trimmed.
  destruct req as [t a y v]. cbn [UpdateBookRequest.Title
    UpdateBookRequest.Author UpdateBookRequest.PublishedYear
    UpdateBookRequest.Available].
  intros H. apply andb_true_iff in H as [H Hy].
  apply andb_true_iff in H as [Ht Ha].
  destruct t as [t|]; cbn [when_supplied option_map] in *.
  - apply valid_text_spec in Ht as [-> _].
    destruct a as [a|]; cbn [when_supplied option_map] in *.
    + apply valid_text_spec in Ha as [-> _].
      destruct y as [y|]; cbn [when_supplied] in *; [|reflexivity].
      rewrite (valid_year_spec _ Hy). reflexivity.
    + destruct y as [y|]; cbn [when_supplied] in *; [|reflexivity].
      rewrite (valid_year_spec _ Hy). reflexivity.
  - destruct a as [a|]; cbn [when_supplied option_map] in *.
    + apply valid_text_spec in Ha as [-> _].
      destruct y as [y|]; cbn [when_supplied] in *; [|reflexivity].
      rewrite (valid_year_spec _ Hy). reflexivity.
    + destruct y as [y|]; cbn [when_supplied] in *; [|reflexivity].
      rewrite (valid_year_spec _ Hy). reflexivity.
Qed.

(** A body that passes the checks goes on trimmed, without blank strings. *)
Lemma validate_update_inr (req req' : UpdateBookRequest.t) :
  handlers.validate_update req = inr req' ->
  req' = trimmed req /\ nonblank req'.
Proof.
  unfold handlers.validate_update, trimmed, nonblank.
  destruct req as [t a y v]. cbn [UpdateBookRequest.Title
    UpdateBookRequest.Author UpdateBookRequest.PublishedYear
    UpdateBookRequest.Available].
  destruct t as [t|]; cbn [option_map];
    [destruct (handlers.is_empty (strings.TrimSpace t)) eqn:Et;
       [discriminate|apply is_empty_false in Et]|];
    (destruct a as [a|]; cbn [option_map];
       [destruct (handlers.is_empty (strings.TrimSpace a)) eqn:Ea;
          [discriminate|apply is_empty_false in Ea]|]);
    match goal with
    | |- (if ?c then _ else _) = _ -> _ => destruct c; [|discriminate]
    end;
    intros H; injection H as <-;
    cbn [UpdateBookRequest.Title UpdateBookRequest.Author];
    (split; [reflexivity|]); split; intros x Hx; congruence.
Qed.

Lemma no_fields_trimmed (req : UpdateBookRequest.t) :
  no_fields (trimmed req) = no_fields req.
Proof. destruct req as [[t|] [a|] [y|] [v|]]; reflexivity. Qed.

(** The answer to an update of a record that exists, once the body has
    passed the checks. *)
Lemma UpdateBook_response (idStr : string) (id : Z)
    (req req' : UpdateBookRequest.t) (d : DB) (b : Book.t) :
  strconv.Atoi idStr = Some id ->
  handlers.validate_update req = inr req' ->
  find (fun x => Book.ID x =? id) (rows d) = Some b ->
  fst (handlers.UpdateBook idStr (Some req) d)
  = if no_fields req' then update_ok b
    else if req_acceptable (strict d) req'
         then update_ok (updated (store_req req') (clock d) b)
         else handlers.sendErrorResponse handlers.StatusInternalServerError
                "Failed to update book".
Proof.
  intros Ha Hv Hf. unfold handlers.UpdateBook. rewrite Ha, Hv.
  rewrite (UpdateBook_found _ _ _ _ Hf).
  destruct (no_fields req'); [reflexivity|].
  cbv zeta. destruct (req_acceptable (strict d) req'); reflexivity.
Qed.

(** ** What a request does to the table *)

Lemma same_table_refl (d : DB) : same_table d d.
Proof. repeat split. Qed.

Lemma same_table_received (q : Stmt) (args : list Value) (d d' : DB) :
  same_table d d' -> same_table d (received q args d').
Proof. intros H. exact H. Qed.

Create HintDb table.
#[local] Hint Resolve same_table_refl same_table_received : table.

Lemma GetBooks_effect (pageStr limitStr q : string) (d : DB) :
  same_table d (snd (handlers.GetBooks pageStr limitStr q d)).
Proof.
  unfold handlers.GetBooks.
  destruct (negb (handlers.is_empty (strings.TrimSpace q))).
  - unfold db.SearchBooks, bind_or, QueryRowCount, Query, page_of, ret.
    destruct (_ || _); cbn [snd]; auto with table.
  - unfold db.GetBooks, bind_or, QueryRowCount, Query, page_of, ret.
    destruct (_ || _); cbn [snd]; auto with table.
Qed.

Lemma GetBook_effect (idStr : string) (d : DB) :
  same_table d (snd (handlers.GetBook idStr d)).
Proof.
  unfold handlers.GetBook.
  destruct (strconv.Atoi idStr) as [id|]; [|auto with table].
  rewrite GetBookByID_eq.
  destruct (find _ (rows d)); cbn [snd]; auto with table.
Qed.

Lemma CreateBook_state (req : CreateBookRequest.t) (d : DB) :
  snd (db.CreateBook req d)
  = if acceptable (strict d) (CreateBookRequest.Title req)
       && acceptable (strict d) (CreateBookRequest.Author req)
       && (auto_increment d <=? INT_MAX)
    then
      received SelectByID [VInt (auto_increment d)]
        (mkDB (rows d ++ [inserted req d]) (auto_increment d + 1) (clock d)
           (strict d)
           ((InsertBook,
             [VString (CreateBookRequest.Title req);
              VString (CreateBookRequest.Author req);
              VInt (CreateBookRequest.PublishedYear req);
              VBool (supplied (CreateBookRequest.Available req) true)])
              :: log d))
    else
      received InsertBook
        [VString (CreateBookRequest.Title req);
         VString (CreateBookRequest.Author req);
         VInt (CreateBookRequest.PublishedYear req);
         VBool (supplied (CreateBookRequest.Available req) true)] d.
Proof.
  unfold db.CreateBook, bind_or, Exec.
  fold (supplied (CreateBookRequest.Available req) true).
  rewrite !varchar_spec.
  destruct (acceptable (strict d) (CreateBookRequest.Title req));
    destruct (acceptable (strict d) (CreateBookRequest.Author req));
    cbn [andb]; try reflexivity.
  destruct (auto_increment d <=? INT_MAX); [|reflexivity].
  rewrite GetBookByID_eq. reflexivity.
Qed.

Lemma CreateBook_effect (body : option CreateBookRequest.t) (d : DB) :
  effect d (snd (handlers.CreateBook body d)).
Proof.
  unfold handlers.CreateBook.
  destruct body as [req|]; [|apply eff_same; auto with table].
  destruct (handlers.is_empty (strings.TrimSpace (CreateBookRequest.Title req)))
    eqn:Et; [apply eff_same; auto with table|].
  destruct (handlers.is_empty (strings.TrimSpace (CreateBookRequest.Author req)))
    eqn:Ea; [apply eff_same; auto with table|].
  destruct (_ || _); [apply eff_same; auto with table|].
  fold (trimmed_create req).
  pose proof (CreateBook_state (trimmed_create req) d) as Hs.
  destruct (db.CreateBook (trimmed_create req) d) as [[book|e] d'];
    cbn [snd] in *; subst d'.
  - destruct (_ && _ && (auto_increment d <=? INT_MAX)) eqn:E.
    + apply andb_true_iff in E as [_ E]. apply Z.leb_le in E.
      apply (eff_insert _ _ (trimmed_create req));
        try reflexivity; try assumption; now apply is_empty_false.
    + apply eff_same; auto with table.
  - destruct (_ && _ && (auto_increment d <=? INT_MAX)) eqn:E.
    + apply andb_true_iff in E as [_ E]. apply Z.leb_le in E.
      apply (eff_insert _ _ (trimmed_create req));
        try reflexivity; try assumption; now apply is_empty_false.
    + apply eff_same; auto with table.
Qed.

Lemma UpdateBook_effect (idStr : string) (body : option UpdateBookRequest.t)
    (d : DB) :
  effect d (snd (handlers.UpdateBook idStr body d)).
Proof.
  unfold handlers.UpdateBook.
  destruct (strconv.Atoi idStr) as [id|]; [|apply eff_same; auto with table].
  destruct body as [req|]; [|apply eff_same; auto with table].
  destruct (handlers.validate_update req) as [m|req'] eqn:Hv;
    [apply eff_same; auto with table|].
  destruct (validate_update_inr _ _ Hv) as [_ Hnb].
  destruct (find (fun x => Book.ID x =? id) (rows d)) as [b|] eqn:Hf.
  - rewrite (UpdateBook_found _ _ _ _ Hf).
    destruct (no_fields req'); [apply eff_same; cbn; auto with table|].
    cbv zeta. destruct (req_acceptable (strict d) req'); cbn [fst snd].
    + apply (eff_update _ _ req' id); try reflexivity; assumption.
    + apply eff_same; auto with table.
  - rewrite (UpdateBook_missing _ _ _ Hf). apply eff_same; cbn; auto with table.
Qed.

Lemma DeleteBook_effect (idStr : string) (d : DB) :
  effect d (snd (handlers.DeleteBook idStr d)).
Proof.
  unfold handlers.DeleteBook.
  destruct (strconv.Atoi idStr) as [id|]; [|apply eff_same; auto with table].
  destruct (find (fun x => Book.ID x =? id) (rows d)) as [b|] eqn:Hf.
  - rewrite (DeleteBook_found _ _ _ Hf). cbn [snd].
    apply (eff_delete _ _ id); reflexivity.
  - rewrite (DeleteBook_missing _ _ Hf). apply eff_same; cbn; auto with table.
Qed.

Lemma serve_effect (r : Request) (d : DB) : effect d (snd (serve r d)).
Proof.
  destruct r; cbn [serve].
  - apply eff_same, GetBooks_effect.
  - apply eff_same, GetBook_effect.
  - apply CreateBook_effect.
  - apply UpdateBook_effect.
  - apply DeleteBook_effect.
Qed.

(** ** Invariants of the table *)

Lemma rows_updated_ids (req : UpdateBookRequest.t) (now : Time) (id : Z)
    (l : list Book.t) :
  map Book.ID (rows_updated req now id l) = map Book.ID l.
Proof.
  unfold rows_updated. rewrite map_map. apply map_ext.
  intros r. destruct (Book.ID r =? id); reflexivity.
Qed.

Lemma rows_updated_length (req : UpdateBookRequest.t) (now : Time) (id : Z)
    (l : list Book.t) :
  List.length (rows_updated req now id l) = List.length l.
Proof. unfold rows_updated. apply length_map. Qed.

Lemma Forall_rows_updated (P : Book.t -> Prop) (req : UpdateBookRequest.t)
    (now : Time) (id : Z) (l : list Book.t) :
  (forall r, P r -> P (updated req now r)) ->
  Forall P l -> Forall P (rows_updated req now id l).
Proof.
  intros HP H. unfold rows_updated. apply Forall_map.
  eapply Forall_impl; [|exact H]. intros r Hr.
  destruct (Book.ID r =? id); auto.
Qed.

(** Rows that stay after a DELETE still have distinct identifiers. *)
Lemma ids_after_delete (keep : Book.t -> bool) (table : list Book.t) :
  NoDup (map Book.ID table) -> NoDup (map Book.ID (filter keep table)).
Proof.
  induction table as [|x rest IH]; intros Hnd; simpl in *; [constructor|].
  apply NoDup_cons_iff in Hnd as [Hx Hrest].
  destruct (keep x); simpl; [|now apply IH].
  apply NoDup_cons; [|now apply IH].
  intros Hin. apply Hx. apply in_map_iff in Hin as [y [Hy Hin]].
  apply filter_In in Hin as [Hin _]. rewrite <- Hy. now apply in_map.
Qed.

Lemma Forall_filter {A : Type} (P : A -> Prop) (p : A -> bool) (l : list A) :
  Forall P l -> Forall P (filter p l).
Proof.
  rewrite !Forall_forall. intros H x Hx.
  apply filter_In in Hx as [Hx _]. now apply H.
Qed.

Lemma wf_same_table (d d' : DB) : same_table d d' -> wf d -> wf d'.
Proof.
  intros (Hr & Ha & Hc & _) [H1 H2 H3 H4 H5].
  constructor; rewrite ?Hr, ?Ha, ?Hc; assumption.
Qed.

(** No request takes the table out of its well-formed states. *)
Lemma effect_wf (d d' : DB) : effect d d' -> wf d -> wf d'.
Proof.
  intros He Hwf. destruct He as [Hs|req Ht Hau Hmax Hr Ha Hc Hm
                                  |req id Hnb Hr Ha Hc Hm|id Hr Ha Hc Hm].
  - eapply wf_same_table; eassumption.
  - destruct Hwf as [H1 H2 H3 H4 H5].
    constructor; rewrite ?Hr, ?Ha, ?Hc.
    + rewrite map_app. apply NoDup_app; [assumption|repeat constructor; auto|].
      intros a Hin [<-|[]]. apply in_map_iff in Hin as [b [Hb Hin]].
      rewrite Forall_forall in H2. specialize (H2 _ Hin).
      cbn [inserted Book.ID] in Hb. lia.
    + apply Forall_app. split.
      * eapply Forall_impl; [|exact H2]. cbn. intros; lia.
      * repeat constructor; cbn [inserted Book.ID]; lia.
    + lia.
    + unfold count in *. rewrite length_app. cbn [List.length]. lia.
    + apply Forall_app. split; [assumption|].
      repeat constructor; cbn [inserted Book.CreatedAt Book.UpdatedAt]; lia.
  - destruct Hwf as [H1 H2 H3 H4 H5].
    constructor; rewrite ?Hr, ?Ha, ?Hc.
    + now rewrite rows_updated_ids.
    + apply Forall_rows_updated; [|assumption]. intros r Hr'. exact Hr'.
    + assumption.
    + unfold count in *. now rewrite rows_updated_length.
    + apply Forall_rows_updated; [|assumption].
      intros r Hr'. cbn [updated Book.CreatedAt Book.UpdatedAt]. lia.
  - destruct Hwf as [H1 H2 H3 H4 H5].
    constructor; rewrite ?Hr, ?Ha, ?Hc.
    + now apply ids_after_delete.
    + now apply Forall_filter.
    + assumption.
    + unfold count in *.
      pose proof (filter_length_le (fun x => negb (Book.ID x =? id)) (rows d)).
      lia.
    + now apply Forall_filter.
Qed.

Lemma text_ok_stored (s : string) :
  s <> "" -> (1 <= String.length (store s) <= 255)%nat.
Proof.
  intros H. destruct (store_length s) as [H1 H2]. specialize (H2 H).
  destruct (store s); [congruence|]. cbn [String.length] in *. lia.
Qed.

(** No request leaves a record with a text column that is empty or longer
    than the column. *)
Lemma effect_text_ok (d d' : DB) :
  effect d d' -> Forall text_ok (rows d) -> Forall text_ok (rows d').
Proof.
  intros He H. destruct He as [Hs|req Ht Hau Hmax Hr Ha Hc Hm
                                |req id Hnb Hr Ha Hc Hm|id Hr Ha Hc Hm].
  - destruct Hs as [-> _]. assumption.
  - rewrite Hr. apply Forall_app. split; [assumption|].
    constructor; [|constructor].
    split; cbn [inserted Book.Title Book.Author]; now apply text_ok_stored.
  - rewrite Hr. apply Forall_rows_updated; [|assumption].
    intros r [Hrt Hra]. destruct Hnb as [Hnt Hna].
    destruct req as [t a y v].
    split; cbn [updated store_req Book.Title Book.Author
                UpdateBookRequest.Title UpdateBookRequest.Author] in *.
    + destruct t as [t|]; cbn [option_map supplied]; [|assumption].
      apply text_ok_stored. now apply Hnt.
    + destruct a as [a|]; cbn [option_map supplied]; [|assumption].
      apply text_ok_stored. now apply Hna.
  - rewrite Hr. now apply Forall_filter.
Qed.

Lemma step_wf (d d' : DB) : step d d' -> wf d -> wf d'.
Proof.
  intros [r d0|s d0 Hs] Hwf.
  - eapply effect_wf; [apply serve_effect|assumption].
  - destruct Hwf as [H1 H2 H3 H4 H5]. constructor; cbn [tick rows
      auto_increment clock]; try assumption.
    eapply Forall_impl; [|exact H5]. cbn. intros; lia.
Qed.

Lemma step_text_ok (d d' : DB) :
  step d d' -> Forall text_ok (rows d) -> Forall text_ok (rows d').
Proof.
  intros [r d0|s d0 Hs] H.
  - eapply effect_text_ok; [apply serve_effect|assumption].
  - assumption.
Qed.

Lemma wf_empty (is_strict : bool) (now : Time) : wf (sql.empty is_strict now).
Proof.
  constructor; cbn; try constructor; unfold INT_MAX; lia.
Qed.

(** Every state of a service started on a well-formed table is
    well-formed; in particular every state of one started on the empty
    table. *)
Lemma reachable_wf (d0 d : DB) : wf d0 -> reachable d0 d -> wf d.
Proof.
  intros H0 Hr. induction Hr as [|d d' _ IH Hs]; [assumption|].
  eapply step_wf; eassumption.
Qed.

(** Well-formedness of a table that is given in full, by evaluation. *)
Ltac wf_by_evaluation :=
  constructor; vm_compute;
  repeat match goal with
    | |- NoDup _ => constructor
    | |- Forall _ _ => constructor
    | |- ~ In _ _ => intros H; vm_compute in H; intuition discriminate
    | |- _ /\ _ => split
    | |- _ = _ -> False => discriminate
    | |- _ = _ => reflexivity
    end.

Lemma valid_update_stored (is_strict : bool) (req : UpdateBookRequest.t) :
  valid_update req = true ->
  req_acceptable is_strict (trimmed req) = true /\
  store_req (trimmed req) = trimmed req.
Proof.
  unfold valid_update, req_acceptable, store_req, trimmed.
  destruct req as [t a y v]. cbn [UpdateBookRequest.Title
    UpdateBookRequest.Author UpdateBookRequest.PublishedYear
    UpdateBookRequest.Available].
  intros H. apply andb_true_iff in H as [H _].
  apply andb_true_iff in H as [Ht Ha].
  destruct t as [t|], a as [a|]; cbn [when_supplied option_map] in *;
    repeat match goal with
      | H : valid_text _ = true |- _ => apply valid_text_spec in H as [_ H]
      end;
    rewrite ?acceptable_fits, ?store_fits by assumption; auto.
Qed.

(** ** The claims of the specification *)




(** C2.  An update that supplies no field, on a record that exists, returns
    that record as it is; the only statement sent to the engine is the
    SELECT that reads it, so there is no write and the table, the clock-
    stamped columns included, is what it was.  The handler answers with
    the same record. *)
Theorem C2_empty_update_no_write (d : DB) (idStr : string) (b : Book.t) :
  wf d ->
  strconv.Atoi idStr = Some (Book.ID b) ->
  In b (rows d) ->
  let d' := snd (db.UpdateBook (Book.ID b) no_change d) in
  fst (db.UpdateBook (Book.ID b) no_change d) = Ok (Some b) /\
  rows d' = rows d /\
  log d' = (SelectByID, [VInt (Book.ID b)]) :: log d /\
  is_write SelectByID = false /\
  fst (handlers.UpdateBook idStr (Some no_change) d) = update_ok b /\
  rows (snd (handlers.UpdateBook idStr (Some no_change) d)) = rows d.
Proof.
  intros Hwf Hid Hin d'.
  pose proof (find_by_id _ _ (wf_nodup _ Hwf) Hin) as Hf.
  subst d'. rewrite (UpdateBook_found _ _ _ _ Hf). cbn [no_fields no_change
    UpdateBookRequest.Title UpdateBookRequest.Author
    UpdateBookRequest.PublishedYear UpdateBookRequest.Available fst snd].
  repeat split.
  - rewrite (UpdateBook_response idStr (Book.ID b) no_change no_change d b);
      [reflexivity|assumption|reflexivity|assumption].
  - unfold handlers.UpdateBook. rewrite Hid.
    change (handlers.validate_update no_change) with
      (@inr string _ no_change).
    cbv beta iota. rewrite (UpdateBook_found _ _ _ _ Hf). reflexivity.
Qed.

Lemma C2_empty_update_no_write_witness :
  let d' := snd (db.UpdateBook 1 no_change (tick 5 shelf)) in
  fst (db.UpdateBook 1 no_change (tick 5 shelf)) = Ok (Some foo) /\
  rows d' = rows (tick 5 shelf) /\
  log d' = (SelectByID, [VInt 1]) :: log (tick 5 shelf) /\
  is_write SelectByID = false /\
  fst (handlers.UpdateBook "1" (Some no_change) (tick 5 shelf)) = update_ok foo /\
  rows (snd (handlers.UpdateBook "1" (Some no_change) (tick 5 shelf)))
  = rows (tick 5 shelf).
Proof.
  apply (C2_empty_update_no_write (tick 5 shelf) "1" foo).
  - wf_by_evaluation.
  - reflexivity.
  - simpl. left. reflexivity.
Defined.

(** C3 (as amended).  An update of an existing record that the service
    accepts sets the update timestamp to the time of the engine's clock
    when it supplies at least one field, and leaves the timestamp as it
    was when it supplies none. *)
Theorem C3_refresh_when_supplied (d : DB) (idStr : string) (b : Book.t)
    (body : option UpdateBookRequest.t) :
  wf d ->
  strconv.Atoi idStr = Some (Book.ID b) ->
  In b (rows d) ->
  handlers.StatusCode (fst (handlers.UpdateBook idStr body d))
  = handlers.StatusOK ->
  exists req b',
    body = Some req /\
    fst (handlers.UpdateBook idStr body d) = update_ok b' /\
    Book.UpdatedAt b'
    = if no_fields req then Book.UpdatedAt b else clock d.
Proof.
  intros Hwf Hid Hin.
  pose proof (find_by_id _ _ (wf_nodup _ Hwf) Hin) as Hf.
  destruct body as [req|].
  - destruct (handlers.validate_update req) as [m|req'] eqn:Hv.
    + unfold handlers.UpdateBook. rewrite Hid, Hv. discriminate.
    + rewrite (UpdateBook_response _ _ _ _ _ _ Hid Hv Hf).
      destruct (validate_update_inr _ _ Hv) as [-> _].
      rewrite no_fields_trimmed.
      destruct (no_fields req) eqn:En.
      * intros _. exists req, b. rewrite En. repeat split.
      * destruct (req_acceptable (strict d) (trimmed req)); [|discriminate].
        intros _. exists req, (updated (store_req (trimmed req)) (clock d) b).
        rewrite En. repeat split.
  - unfold handlers.UpdateBook. rewrite Hid. discriminate.
Qed.

Lemma C3_refresh_when_supplied_witness :
  exists req b',
    Some lend_out = Some req /\
    fst (handlers.UpdateBook "1" (Some lend_out) (tick 5 shelf)) = update_ok b' /\
    Book.UpdatedAt b' = if no_fields req then 100 else 105.
Proof.
  apply (C3_refresh_when_supplied (tick 5 shelf) "1" foo (Some lend_out)).
  - wf_by_evaluation.
  - reflexivity.
  - simpl. left. reflexivity.
  - reflexivity.
Defined.

(** C3, as stated, fails: five seconds after the record was written, an
    update without fields is accepted and answered with the record, whose
    update timestamp is still the second of the creation. *)
Lemma C3_counterexample :
  clock (tick 5 shelf) = 105 /\
  fst (handlers.UpdateBook "1" (Some no_change) (tick 5 shelf)) = update_ok foo /\
  Book.UpdatedAt foo = 100 /\
  rows (snd (handlers.UpdateBook "1" (Some no_change) (tick 5 shelf))) = [foo].
Proof. repeat split. Qed.

Lemma selected_literal (term : string) (l : list Book.t) :
  term <> "" -> literal term = true -> selected term l = matched term l.
Proof.
  intros Hne Hlit. unfold selected, matched.
  apply is_empty_false in Hne. rewrite Hne.
  apply filter_ext. intros b. unfold title_or_author_like.
  now rewrite !like_literal.
Qed.

Lemma matched_none (term : string) (l : list Book.t) :
  (forall b, In b l ->
     contains_ci (Book.Title b) term = false /\
     contains_ci (Book.Author b) term = false) ->
  matched term l = [].
Proof.
  unfold matched. induction l as [|x l IH]; intros H; simpl; [reflexivity|].
  destruct (H x (or_introl eq_refl)) as [-> ->]. simpl.
  apply IH. intros b Hb. apply H. now right.
Qed.






Lemma count_selected (term : string) (l : list Book.t) :
  0 <= count (selected term l) <= count l.
Proof.
  unfold selected, count. destruct (handlers.is_empty term); [lia|].
  pose proof (filter_length_le
                (title_or_author_like ("%" ++ term ++ "%") ("%" ++ term ++ "%"))
                l).
  lia.
Qed.

Lemma total_pages_of_table (d : DB) (term : string) (lim : Z) :
  wf d -> 1 <= lim <= 100 ->
  float64.Ceil_int
    (float64.div (float64.of_int (count (selected term (rows d))))
       (float64.of_int lim))
  = ceil_div (count (selected term (rows d))) lim.
Proof.
  intros Hwf Hl. apply total_pages_exact; [|assumption].
  pose proof (count_selected term (rows d)).
  pose proof (wf_count _ Hwf). pose proof (wf_counter _ Hwf).
  unfold INT_MAX in *. lia.
Qed.



(** A page beyond the last one, as long as the product [(page - 1) * limit]
    stays within the machine integers: no record, and the total of all
    records. *)
Lemma GetBooks_beyond_last_page (d : DB) (pageStr limitStr : string) :
  let page := effective_page pageStr in
  let lim := effective_limit limitStr in
  let T := count (rows d) in
  ceil_div T lim < page ->
  (page - 1) * lim <= GoInt.max_int ->
  exists pages,
    fst (handlers.GetBooks pageStr limitStr "" d)
    = handlers.sendJSONResponse handlers.StatusOK
        (handlers.Paginated
           (PaginatedResponse.mk true []
              (Pagination.mk page lim T pages) "")).
Proof.
  intros page lim T Hbeyond Hmax.
  pose proof (effective_limit_range limitStr) as Hl. fold lim in Hl.
  pose proof (effective_page_pos pageStr) as Hp. fold page in Hp.
  assert (Hoff : page_offset page lim = (page - 1) * lim).
  { unfold page_offset, GoInt.mul, GoInt.sub, GoInt.wrap, GoInt.max_int in *.
    assert (E1 : (page - 1 + 2 ^ 63) mod 2 ^ 64 - 2 ^ 63 = page - 1).
    { rewrite Z.mod_small; nia. }
    rewrite E1. rewrite Z.mod_small; nia. }
  rewrite GetBooks_response. fold page lim.
  change (strings.TrimSpace "") with "". cbn [selected handlers.is_empty String.eqb].
  assert (E : (page_offset page lim <? 0) = false)
    by (apply Z.ltb_ge; rewrite Hoff; nia).
  rewrite E. unfold list_ok. eexists. f_equal. f_equal. f_equal.
  unfold page_slice. rewrite offset_beyond; [reflexivity|].
  rewrite count_order_by, Hoff. fold T.
  pose proof (ceil_div_spec T lim ltac:(lia)). nia.
Qed.

(** C7 fails on the machine: with 64 records to a page, page
    288230376151711745 has the offset [2 ^ 58 * 64], which wraps to 0; the
    request is answered with the first page of records, though the page
    lies beyond the single page that the answer reports. *)
Theorem C7_page_beyond_total_overflow :
  page_offset 288230376151711745 64 = 0 /\
  fst (handlers.GetBooks "288230376151711745" "64" "" shelf)
  = handlers.sendJSONResponse handlers.StatusOK
      (handlers.Paginated
         (PaginatedResponse.mk true [foo]
            (Pagination.mk 288230376151711745 64 1 1) "")).
Proof. split; reflexivity. Qed.

Lemma find_id_present (l : list Book.t) (b : Book.t) :
  In b l -> exists b', find (fun x => Book.ID x =? Book.ID b) l = Some b'.
Proof.
  intros Hin. destruct (find _ l) as [b'|] eqn:E; [now exists b'|].
  pose proof (find_none _ _ E _ Hin) as H. cbv beta in H.
  rewrite Z.eqb_refl in H. discriminate.
Qed.

(** C8.  Deleting a record that exists is answered with status 200 and the
    message of success, without data; a get of the same identifier right
    after is answered with not-found (404), and so is a second delete. *)
Theorem C8_delete_then_not_found (d : DB) (idStr : string) (b : Book.t) :
  strconv.Atoi idStr = Some (Book.ID b) ->
  In b (rows d) ->
  let d1 := snd (handlers.DeleteBook idStr d) in
  fst (handlers.DeleteBook idStr d) = deleted /\
  ~ In b (rows d1) /\
  fst (handlers.GetBook idStr d1) = not_found /\
  fst (handlers.DeleteBook idStr d1) = not_found.
Proof.
  intros Hid Hin d1.
  destruct (find_id_present _ _ Hin) as [b' Hf].
  assert (Hd : handlers.DeleteBook idStr d
               = (deleted,
                  with_rows
                    (filter (fun x => negb (Book.ID x =? Book.ID b)) (rows d))
                    (received DeleteByID [VInt (Book.ID b)]
                       (received SelectByID [VInt (Book.ID b)] d)))).
  { unfold handlers.DeleteBook. rewrite Hid, (DeleteBook_found _ _ _ Hf).
    reflexivity. }
  subst d1. rewrite Hd. cbn [fst snd].
  split; [reflexivity|]. split.
  { cbn [rows with_rows]. intros H. apply filter_In in H as [_ H].
    rewrite Z.eqb_refl in H. discriminate. }
  split.
  - unfold handlers.GetBook. rewrite Hid, GetBookByID_eq.
    cbn [rows with_rows]. rewrite find_id_deleted. reflexivity.
  - unfold handlers.DeleteBook. rewrite Hid.
    rewrite DeleteBook_missing; [reflexivity|].
    cbn [rows with_rows]. apply find_id_deleted.
Qed.

Lemma C8_delete_then_not_found_witness :
  let d1 := snd (handlers.DeleteBook "1" shelf) in
  fst (handlers.DeleteBook "1" shelf) = deleted /\
  ~ In foo (rows d1) /\
  fst (handlers.GetBook "1" d1) = not_found /\
  fst (handlers.DeleteBook "1" d1) = not_found.
Proof.
  apply (C8_delete_then_not_found shelf "1" foo).
  - reflexivity.
  - simpl. left. reflexivity.
Defined.

Lemma reachable_text_ok (d0 d : DB) :
  Forall text_ok (rows d0) -> reachable d0 d -> Forall text_ok (rows d).
Proof.
  intros H0 Hr. induction Hr as [|d d' _ IH Hs]; [assumption|].
  eapply step_text_ok; eassumption.
Qed.

Lemma acceptable_too_long (s : string) :
  (255 < String.length s)%nat -> acceptable true s = false.
Proof.
  intros H. unfold acceptable, VARCHAR_MAX.
  apply Nat.leb_gt in H. now rewrite H.
Qed.



(** Without strict mode the engine cuts the text to the column instead of
    refusing it: the same request is answered with status 201 and stores a
    title of 255 characters. *)
Lemma too_long_truncated :
  handlers.StatusCode
    (fst (handlers.CreateBook (Some long_request) (sql.empty false 100)))
  = handlers.StatusCreated /\
  map (fun b => String.length (Book.Title b))
    (rows (snd (handlers.CreateBook (Some long_request) (sql.empty false 100))))
  = [255%nat].
Proof. split; vm_compute; reflexivity. Qed.

Lemma filter_all {A : Type} (p : A -> bool) (l : list A) :
  (forall x, p x = true) -> filter p l = l.
Proof.
  intros H. induction l as [|x l IH]; simpl; [reflexivity|].
  now rewrite H, IH.
Qed.

(** C10.  The search term goes into the LIKE pattern as it is.  The term
    [%] makes a pattern that every string matches, so a search for it
    selects every record: it is answered like a list request without a
    term, with the number of all records as the total.  The terms [%] and
    [_] find the record "Foo" by "Bar", in which neither character
    occurs. *)
Theorem C10_percent_matches_all (d : DB) (pageStr limitStr : string) :
  0 <= page_offset (effective_page pageStr) (effective_limit limitStr) ->
  (forall b,
     title_or_author_like ("%" ++ "%" ++ "%") ("%" ++ "%" ++ "%") b = true) /\
  selected (strings.TrimSpace "%") (rows d) = rows d /\
  fst (handlers.GetBooks pageStr limitStr "%" d)
  = fst (handlers.GetBooks pageStr limitStr "" d) /\
  fst (handlers.GetBooks pageStr limitStr "%" d)
  = list_ok (effective_page pageStr) (effective_limit limitStr) (rows d) /\
  selected "%" (rows shelf) = [foo] /\
  contains_ci (Book.Title foo) "%" = false /\
  contains_ci (Book.Author foo) "%" = false /\
  selected "_" (rows shelf) = [foo] /\
  contains_ci (Book.Title foo) "_" = false /\
  contains_ci (Book.Author foo) "_" = false.
Proof.
  intros Hoff. apply Z.ltb_ge in Hoff.
  assert (Hall : forall b,
            title_or_author_like ("%" ++ "%" ++ "%") ("%" ++ "%" ++ "%") b = true).
  { intros b. unfold title_or_author_like. now rewrite like_percent. }
  assert (Hsel : selected (strings.TrimSpace "%") (rows d) = rows d).
  { change (strings.TrimSpace "%") with "%". unfold selected.
    cbn [handlers.is_empty String.eqb Ascii.eqb Bool.eqb].
    apply filter_all, Hall. }
  split; [exact Hall|]. split; [exact Hsel|].
  rewrite !GetBooks_response. rewrite Hsel, Hoff.
  change (strings.TrimSpace "") with "".
  repeat split.
Qed.

Lemma C10_percent_matches_all_witness :
  fst (handlers.GetBooks "1" "10" "%" shelf) = list_ok 1 10 [foo] /\
  contains_ci (Book.Title foo) "%" = false /\
  contains_ci (Book.Author foo) "%" = false.
Proof.
  destruct (C10_percent_matches_all shelf "1" "10") as (_ & _ & _ & H & _ & Ht & Ha & _).
  - vm_compute. discriminate.
  - split; [exact H|]. split; [exact Ht|exact Ha].
Defined.

(** ** Beyond the claims: what each request changes *)

Lemma CreateBook_change (body : option CreateBookRequest.t) (d : DB) :
  change (Create body) d (snd (handlers.CreateBook body d)).
Proof.
  unfold handlers.CreateBook.
  destruct body as [req|]; [|apply ch_none; auto with table].
  destruct (handlers.is_empty (strings.TrimSpace (CreateBookRequest.Title req)))
    eqn:Et; [apply ch_none; auto with table|].
  destruct (handlers.is_empty (strings.TrimSpace (CreateBookRequest.Author req)))
    eqn:Ea; [apply ch_none; auto with table|].
  destruct ((CreateBookRequest.PublishedYear req <? 1000)
            || (2100 <? CreateBookRequest.PublishedYear req)) eqn:Ey;
    [apply ch_none; auto with table|].
  apply orb_false_iff in Ey as [Ey1 Ey2].
  apply Z.ltb_ge in Ey1. apply Z.ltb_ge in Ey2.
  apply is_empty_false in Et. apply is_empty_false in Ea.
  fold (trimmed_create req).
  pose proof (CreateBook_state (trimmed_create req) d) as Hs.
  cbn [trimmed_create CreateBookRequest.Title CreateBookRequest.Author] in Hs.
  fold (trimmed_create req) in Hs.
  assert (Hd : forall d', d' = snd (db.CreateBook (trimmed_create req) d) ->
                          change (Create (Some req)) d d').
  { intros d' ->. rewrite Hs.
    destruct (acceptable (strict d)
                (strings.TrimSpace (CreateBookRequest.Title req))) eqn:At;
      [|apply ch_none; cbn; auto with table].
    destruct (acceptable (strict d)
                (strings.TrimSpace (CreateBookRequest.Author req))) eqn:Aa;
      [|apply ch_none; cbn; auto with table].
    cbn [andb].
    destruct (auto_increment d <=? INT_MAX) eqn:Em;
      [|apply ch_none; cbn; auto with table].
    apply Z.leb_le in Em.
    apply ch_create; try assumption; try reflexivity; lia. }
  destruct (db.CreateBook (trimmed_create req) d) as [[book|e] d'];
    cbn [snd] in *; now apply Hd.
Qed.

Lemma validate_update_year (req req' : UpdateBookRequest.t) :
  handlers.validate_update req = inr req' ->
  when_supplied valid_year (UpdateBookRequest.PublishedYear req) = true.
Proof.
  unfold handlers.validate_update.
  destruct req as [t a y v]. cbn [UpdateBookRequest.Title
    UpdateBookRequest.Author UpdateBookRequest.PublishedYear
    UpdateBookRequest.Available].
  destruct t as [t|];
    [destruct (handlers.is_empty (strings.TrimSpace t)); [discriminate|]|];
    (destruct a as [a|];
       [destruct (handlers.is_empty (strings.TrimSpace a)); [discriminate|]|]);
    (destruct y as [y|]; cbn [when_supplied]; [|reflexivity]);
    unfold valid_year;
    destruct (y <? 1000) eqn:E1; destruct (2100 <? y) eqn:E2;
    cbn [orb negb]; try discriminate; intros _;
    apply Z.ltb_ge in E1; apply Z.ltb_ge in E2;
    apply andb_true_iff; split; apply Z.leb_le; lia.
Qed.

Lemma UpdateBook_change (idStr : string) (body : option UpdateBookRequest.t)
    (d : DB) :
  change (Update idStr body) d (snd (handlers.UpdateBook idStr body d)).
Proof.
  unfold handlers.UpdateBook.
  destruct (strconv.Atoi idStr) as [id|] eqn:Hid;
    [|apply ch_none; auto with table].
  destruct body as [req|]; [|apply ch_none; auto with table].
  destruct (handlers.validate_update req) as [m|req'] eqn:Hv;
    [apply ch_none; auto with table|].
  destruct (validate_update_inr _ _ Hv) as [-> _].
  destruct (find (fun x => Book.ID x =? id) (rows d)) as [b|] eqn:Hf.
  - rewrite (UpdateBook_found _ _ _ _ Hf). rewrite no_fields_trimmed.
    destruct (no_fields req) eqn:En; [apply ch_none; cbn; auto with table|].
    cbv zeta.
    destruct (req_acceptable (strict d) (trimmed req)) eqn:Ha; cbn [fst snd].
    + eapply ch_update; try eassumption; reflexivity.
    + apply ch_none; auto with table.
  - rewrite (UpdateBook_missing _ _ _ Hf). apply ch_none; cbn; auto with table.
Qed.

Lemma DeleteBook_change (idStr : string) (d : DB) :
  change (Delete idStr) d (snd (handlers.DeleteBook idStr d)).
Proof.
  unfold handlers.DeleteBook.
  destruct (strconv.Atoi idStr) as [id|] eqn:Hid;
    [|apply ch_none; auto with table].
  destruct (find (fun x => Book.ID x =? id) (rows d)) as [b|] eqn:Hf.
  - rewrite (DeleteBook_found _ _ _ Hf). cbn [snd].
    eapply ch_delete; try eassumption; reflexivity.
  - rewrite (DeleteBook_missing _ _ Hf). apply ch_none; cbn; auto with table.
Qed.

Lemma serve_change (r : Request) (d : DB) : change r d (snd (serve r d)).
Proof.
  destruct r; cbn [serve].
  - apply ch_none, GetBooks_effect.
  - apply ch_none, GetBook_effect.
  - apply CreateBook_change.
  - apply UpdateBook_change.
  - apply DeleteBook_change.
Qed.

Lemma change_strict (r : Request) (d d' : DB) :
  change r d d' -> strict d' = strict d.
Proof.
  intros H. destruct H as [r d d' (_ & _ & _ & Hs)| | |]; assumption.
Qed.

Lemma In_rows_updated (req : UpdateBookRequest.t) (now : Time) (id : Z)
    (l : list Book.t) (x : Book.t) :
  In x (rows_updated req now id l) <->
  exists r, In r l /\
            x = if Book.ID r =? id then updated req now r else r.
Proof.
  unfold rows_updated. rewrite in_map_iff.
  split; intros [r [H1 H2]]; exists r; auto.
Qed.

(** ** Beyond the claims: the answers *)

Lemma validate_update_message (req : UpdateBookRequest.t) (m : string) :
  handlers.validate_update req = inl m -> m <> "".
Proof.
  unfold handlers.validate_update.
  destruct req as [t a y v]. cbn [UpdateBookRequest.Title
    UpdateBookRequest.Author UpdateBookRequest.PublishedYear
    UpdateBookRequest.Available].
  destruct t as [t|];
    [destruct (handlers.is_empty (strings.TrimSpace t));
       [intros H; injection H as <-; discriminate|]|];
    (destruct a as [a|];
       [destruct (handlers.is_empty (strings.TrimSpace a));
          [intros H; injection H as <-; discriminate|]|]);
    match goal with
    | |- (if ?c then _ else _) = _ -> _ => destruct c; [discriminate|]
    end;
    intros H; injection H as <-; discriminate.
Qed.

Ltac envelope :=
  unfold envelope_ok; cbn;
  repeat split;
  try (left; reflexivity); try (right; reflexivity);
  try (right; left; reflexivity); try (right; right; reflexivity);
  try reflexivity; try discriminate.

(** X1.  Every answer of the service has the one envelope: a success has
    status 200 or 201 and no error text; a failure has status 400, 404 or
    500, an error text that is not empty, no data and no message; a page
    of records has status 200. *)
Theorem X1_envelope (r : Request) (d : DB) : envelope_ok (fst (serve r d)).
Proof.
  destruct r as [p l q|i|body|i body|i]; cbn [serve].
  - rewrite GetBooks_response.
    destruct (page_offset _ _ <? 0); envelope.
  - unfold handlers.GetBook.
    destruct (strconv.Atoi i) as [id|]; [|envelope].
    rewrite GetBookByID_eq. destruct (find _ (rows d)); envelope.
  - unfold handlers.CreateBook.
    destruct body as [req|]; [|envelope].
    destruct (handlers.is_empty _); [envelope|].
    destruct (handlers.is_empty _); [envelope|].
    destruct (_ || _); [envelope|].
    destruct (db.CreateBook _ d) as [[book|e] d']; envelope.
  - unfold handlers.UpdateBook.
    destruct (strconv.Atoi i) as [id|]; [|envelope].
    destruct body as [req|]; [|envelope].
    destruct (handlers.validate_update req) as [m|req'] eqn:Hv.
    + apply validate_update_message in Hv. envelope. exact Hv.
    + destruct (db.UpdateBook id req' d) as [[[b|]|e] d']; envelope.
  - unfold handlers.DeleteBook.
    destruct (strconv.Atoi i) as [id|]; [|envelope].
    destruct (db.DeleteBook id d) as [[u|e] d']; [envelope|].
    destruct e; envelope.
Qed.

Lemma GetBooks_state (pageStr limitStr q : string) (d : DB) :
  let page := effective_page pageStr in
  let lim := effective_limit limitStr in
  let term := strings.TrimSpace q in
  snd (handlers.GetBooks pageStr limitStr q d)
  = if handlers.is_empty term then
      received PageAll [VInt lim; VInt (page_offset page lim)]
        (received CountAll [] d)
    else
      received PageLike
        [VString ("%" ++ term ++ "%"); VString ("%" ++ term ++ "%");
         VInt lim; VInt (page_offset page lim)]
        (received CountLike
           [VString ("%" ++ term ++ "%"); VString ("%" ++ term ++ "%")] d).
Proof.
  intros page lim term. unfold handlers.GetBooks.
  rewrite handler_page, handler_limit. fold page lim term.
  destruct (handlers.is_empty term); cbn [negb].
  - unfold db.GetBooks, bind_or, QueryRowCount, Query, page_of, ret.
    fold (page_offset page lim). destruct (_ || _); reflexivity.
  - unfold db.SearchBooks, bind_or, QueryRowCount, Query, page_of, ret.
    fold (page_offset page lim). destruct (_ || _); reflexivity.
Qed.

(** X2.  The two reading requests write nothing: after a list or search
    request and after a get by identifier the table, the counter and the
    clock are what they were, and the statements sent to the engine (two
    for a list, at most one for a get) are all SELECTs. *)
Theorem X2_reads_never_write (pageStr limitStr q idStr : string) (d : DB) :
  (same_table d (snd (handlers.GetBooks pageStr limitStr q d)) /\
   exists sent,
     log (snd (handlers.GetBooks pageStr limitStr q d)) = (sent ++ log d)%list /\
     List.length sent = 2%nat /\ only_reads sent = true) /\
  (same_table d (snd (handlers.GetBook idStr d)) /\
   exists sent,
     log (snd (handlers.GetBook idStr d)) = (sent ++ log d)%list /\
     (List.length sent <= 1)%nat /\ only_reads sent = true).
Proof.
  split; split.
  - apply GetBooks_effect.
  - rewrite GetBooks_state.
    destruct (handlers.is_empty (strings.TrimSpace q)); cbn [log received];
      eexists [_; _]; repeat split.
  - apply GetBook_effect.
  - unfold handlers.GetBook.
    destruct (strconv.Atoi idStr) as [id|].
    + rewrite GetBookByID_eq.
      destruct (find _ (rows d)); cbn [snd log received];
        exists [(SelectByID, [VInt id])]; repeat split; auto.
    + exists []. repeat split; auto.
Qed.

(** X3.  A request that is answered with status 400 has not reached the
    engine: the database, the statements received included, is exactly what
    it was. *)
Theorem X3_bad_request_touches_nothing (r : Request) (d : DB) :
  handlers.StatusCode (fst (serve r d)) = handlers.StatusBadRequest ->
  snd (serve r d) = d.
Proof.
  destruct r as [p l q|i|body|i body|i]; cbn [serve].
  - rewrite GetBooks_response.
    destruct (page_offset _ _ <? 0); discriminate.
  - unfold handlers.GetBook.
    destruct (strconv.Atoi i) as [id|]; [|reflexivity].
    rewrite GetBookByID_eq. destruct (find _ (rows d)); discriminate.
  - unfold handlers.CreateBook.
    destruct body as [req|]; [|reflexivity].
    destruct (handlers.is_empty _); [reflexivity|].
    destruct (handlers.is_empty _); [reflexivity|].
    destruct (_ || _); [reflexivity|].
    destruct (db.CreateBook _ d) as [[book|e] d']; discriminate.
  - unfold handlers.UpdateBook.
    destruct (strconv.Atoi i) as [id|]; [|reflexivity].
    destruct body as [req|]; [|reflexivity].
    destruct (handlers.validate_update req) as [m|req']; [reflexivity|].
    destruct (db.UpdateBook id req' d) as [[[b|]|e] d']; discriminate.
  - unfold handlers.DeleteBook.
    destruct (strconv.Atoi i) as [id|]; [|reflexivity].
    destruct (db.DeleteBook id d) as [[u|e] d']; [discriminate|].
    destruct e; discriminate.
Qed.

Lemma X3_bad_request_touches_nothing_witness :
  snd (serve (Update "1" (Some (UpdateBookRequest.mk (Some "  ") None None None)))
         shelf) = shelf.
Proof.
  apply (X3_bad_request_touches_nothing
           (Update "1" (Some (UpdateBookRequest.mk (Some "  ") None None None)))
           shelf).
  reflexivity.
Defined.

(** X4.  A request that is answered with status 404 has only looked the
    identifier up: the one statement sent is the SELECT by identifier, the
    table holds no record of that identifier, and nothing is written. *)
Theorem X4_not_found_only_reads (r : Request) (d : DB) :
  handlers.StatusCode (fst (serve r d)) = handlers.StatusNotFound ->
  exists id,
    snd (serve r d) = received SelectByID [VInt id] d /\
    find (fun x => Book.ID x =? id) (rows d) = None /\
    fst (serve r d) = not_found.
Proof.
  destruct r as [p l q|i|body|i body|i]; cbn [serve].
  - rewrite GetBooks_response.
    destruct (page_offset _ _ <? 0); discriminate.
  - unfold handlers.GetBook.
    destruct (strconv.Atoi i) as [id|]; [|discriminate].
    rewrite GetBookByID_eq.
    destruct (find _ (rows d)) eqn:Hf; [discriminate|].
    intros _. exists id. auto.
  - unfold handlers.CreateBook.
    destruct body as [req|]; [|discriminate].
    destruct (handlers.is_empty _); [discriminate|].
    destruct (handlers.is_empty _); [discriminate|].
    destruct (_ || _); [discriminate|].
    destruct (db.CreateBook _ d) as [[book|e] d']; discriminate.
  - unfold handlers.UpdateBook.
    destruct (strconv.Atoi i) as [id|]; [|discriminate].
    destruct body as [req|]; [|discriminate].
    destruct (handlers.validate_update req) as [m|req']; [discriminate|].
    destruct (find (fun x => Book.ID x =? id) (rows d)) as [b|] eqn:Hf.
    + rewrite (UpdateBook_found _ _ _ _ Hf).
      destruct (no_fields req'); [discriminate|]. cbv zeta.
      destruct (req_acceptable (strict d) req'); discriminate.
    + rewrite (UpdateBook_missing _ _ _ Hf). intros _. exists id. auto.
  - unfold handlers.DeleteBook.
    destruct (strconv.Atoi i) as [id|]; [|discriminate].
    destruct (find (fun x => Book.ID x =? id) (rows d)) as [b|] eqn:Hf.
    + rewrite (DeleteBook_found _ _ _ Hf). discriminate.
    + rewrite (DeleteBook_missing _ _ Hf). intros _. exists id. auto.
Qed.

Lemma X4_not_found_only_reads_witness :
  exists id,
    snd (serve (Update "7" (Some lend_out)) shelf)
    = received SelectByID [VInt id] shelf /\
    find (fun x => Book.ID x =? id) (rows shelf) = None /\
    fst (serve (Update "7" (Some lend_out)) shelf) = not_found.
Proof.
  apply (X4_not_found_only_reads (Update "7" (Some lend_out)) shelf).
  reflexivity.
Defined.

(** ** Beyond the claims: invariants of the stored records *)

Lemma change_year_ok (r : Request) (d d' : DB) :
  change r d d' -> Forall year_ok (rows d) -> Forall year_ok (rows d').
Proof.
  intros Hc H.
  destruct Hc as [r d d' Hs
                 |req d d' Ht Hau Hy Hat Haa Hmax Hr Ha Hcl Hm
                 |idStr id req b d d' Hid Hv Hf Hn Hacc Hr Ha Hcl Hm
                 |idStr id b d d' Hid Hf Hr Ha Hcl Hm].
  - destruct Hs as [-> _]. assumption.
  - rewrite Hr. apply Forall_app. split; [assumption|].
    constructor; [|constructor]. exact Hy.
  - rewrite Hr. apply Forall_rows_updated; [|assumption].
    intros x Hx. unfold year_ok in *.
    pose proof (validate_update_year _ _ Hv) as Hyr.
    destruct req as [t a [y|] v];
      cbn [updated store_req trimmed Book.PublishedYear supplied
           UpdateBookRequest.PublishedYear when_supplied] in *;
      [|assumption].
    unfold valid_year in Hyr. apply andb_true_iff in Hyr as [H1 H2].
    apply Z.leb_le in H1. apply Z.leb_le in H2. lia.
  - rewrite Hr. now apply Forall_filter.
Qed.

Lemma reachable_year_ok (d0 d : DB) :
  Forall year_ok (rows d0) -> reachable d0 d -> Forall year_ok (rows d).
Proof.
  intros H0 Hr. induction Hr as [|d d' _ IH Hs]; [assumption|].
  destruct Hs as [r d|s d Hs]; [|assumption].
  eapply change_year_ok; [apply serve_change|assumption].
Qed.

(** X5.  The published year of every stored record stays within 1000 and
    2100: no sequence of requests, from a table in which this holds, leads
    to a record outside the range. *)
Theorem X5_year_in_range (d0 d : DB) :
  Forall year_ok (rows d0) -> reachable d0 d -> Forall year_ok (rows d).
Proof. apply reachable_year_ok. Qed.

Lemma X5_year_in_range_witness : Forall year_ok (rows shelf).
Proof.
  apply (X5_year_in_range (sql.empty true 100) shelf).
  - constructor.
  - apply reach_step with (d := sql.empty true 100); [apply reach_start|].
    exact (step_request (Create (Some foo_request)) (sql.empty true 100)).
Defined.

(** X6.  Every state of the service, started on a well-formed table, has
    records with distinct, positive identifiers below the counter of the
    engine, and with timestamps in order: created no later than updated,
    updated no later than the clock. *)
Theorem X6_identifiers_and_timestamps (d0 d : DB) :
  wf d0 -> reachable d0 d ->
  NoDup (map Book.ID (rows d)) /\
  Forall (fun b => 0 < Book.ID b < auto_increment d /\
                   Book.CreatedAt b <= Book.UpdatedAt b <= clock d) (rows d).
Proof.
  intros H0 Hr. destruct (reachable_wf _ _ H0 Hr) as [H1 H2 _ _ H5].
  split; [assumption|].
  rewrite Forall_forall in *. intros b Hb. split; auto.
Qed.

Lemma X6_identifiers_and_timestamps_witness :
  NoDup (map Book.ID (rows shelf)) /\
  Forall (fun b => 0 < Book.ID b < auto_increment shelf /\
                   Book.CreatedAt b <= Book.UpdatedAt b <= clock shelf)
    (rows shelf).
Proof.
  apply (X6_identifiers_and_timestamps (sql.empty true 100) shelf).
  - wf_by_evaluation.
  - apply reach_step with (d := sql.empty true 100); [apply reach_start|].
    exact (step_request (Create (Some foo_request)) (sql.empty true 100)).
Defined.

Lemma same_id_same_record (l : list Book.t) (a b : Book.t) :
  NoDup (map Book.ID l) -> In a l -> In b l -> Book.ID a = Book.ID b -> a = b.
Proof.
  intros Hnd Ha Hb Hid.
  pose proof (find_by_id _ _ Hnd Ha) as Fa.
  pose proof (find_by_id _ _ Hnd Hb) as Fb.
  rewrite Hid in Fa. congruence.
Qed.

(** X7.  The identifier and the creation time of a record never change,
    and its update time never goes back: whatever one request or the
    passing of time does, a record that is still stored under the same
    identifier has the creation time it had and an update time that is
    not earlier. *)
Theorem X7_created_at_immutable (d d' : DB) (b b' : Book.t) :
  wf d -> step d d' ->
  In b (rows d) -> In b' (rows d') -> Book.ID b' = Book.ID b ->
  Book.CreatedAt b' = Book.CreatedAt b /\
  Book.UpdatedAt b <= Book.UpdatedAt b'.
Proof.
  intros Hwf Hs Hb Hb' Hid.
  pose proof (wf_nodup _ Hwf) as Hnd.
  assert (Hsame : In b' (rows d) ->
                  Book.CreatedAt b' = Book.CreatedAt b /\
                  Book.UpdatedAt b <= Book.UpdatedAt b').
  { intros Hin. rewrite (same_id_same_record _ _ _ Hnd Hin Hb Hid).
    split; [reflexivity|lia]. }
  destruct Hs as [r d|s d Hs]; [|now apply Hsame].
  pose proof (serve_change r d) as Hc.
  remember (snd (serve r d)) as d' eqn:Ed. clear Ed.
  destruct Hc as [r d d' Hst
                 |req d d' Ht Hau Hy Hat Haa Hmax Hr Ha Hcl Hm
                 |idStr id req x d d' Hidx Hv Hf Hn Hacc Hr Ha Hcl Hm
                 |idStr id x d d' Hidx Hf Hr Ha Hcl Hm].
  - destruct Hst as [Hr _]. rewrite Hr in Hb'. now apply Hsame.
  - rewrite Hr in Hb'. apply in_app_or in Hb' as [Hin|[<-|[]]];
      [now apply Hsame|].
    pose proof (wf_ids _ Hwf) as Hids. rewrite Forall_forall in Hids.
    specialize (Hids _ Hb). cbn [inserted Book.ID] in Hid. lia.
  - rewrite Hr in Hb'. apply In_rows_updated in Hb' as [y [Hy Hb']].
    assert (Hyid : Book.ID b' = Book.ID y).
    { subst b'. destruct (Book.ID y =? id); reflexivity. }
    assert (y = b).
    { apply (same_id_same_record _ _ _ Hnd Hy Hb). congruence. }
    subst y.
    pose proof (wf_times _ Hwf) as Htm. rewrite Forall_forall in Htm.
    specialize (Htm _ Hb).
    subst b'. destruct (Book.ID b =? id);
      cbn [updated Book.CreatedAt Book.UpdatedAt]; split; try reflexivity; lia.
  - rewrite Hr in Hb'. apply filter_In in Hb' as [Hin _]. now apply Hsame.
Qed.

Lemma X7_created_at_immutable_witness :
  Book.CreatedAt (Book.mk 1 "Foo" "Bar" 2020 false 100 105) = Book.CreatedAt foo /\
  Book.UpdatedAt foo <= Book.UpdatedAt (Book.mk 1 "Foo" "Bar" 2020 false 100 105).
Proof.
  apply (X7_created_at_immutable (tick 5 shelf)
           (snd (serve (Update "1" (Some lend_out)) (tick 5 shelf)))).
  - wf_by_evaluation.
  - apply step_request.
  - simpl. left. reflexivity.
  - simpl. left. reflexivity.
  - reflexivity.
Defined.

Lemma change_counter (r : Request) (d d' : DB) :
  change r d d' -> auto_increment d <= auto_increment d'.
Proof.
  intros H. destruct H as [r d d' (_ & Ha & _)| | |]; lia.
Qed.

Lemma reachable_counter (d d' : DB) :
  reachable d d' -> auto_increment d <= auto_increment d'.
Proof.
  induction 1 as [|d1 d2 _ IH Hs]; [lia|].
  destruct Hs as [r d1|s d1 Hs]; [|exact IH].
  pose proof (change_counter _ _ _ (serve_change r d1)). lia.
Qed.

(** The record and the table of a creation that is answered with the
    record. *)
Lemma CreateBook_created (body : option CreateBookRequest.t) (d : DB)
    (b : Book.t) :
  wf d ->
  fst (handlers.CreateBook body d) = created b ->
  exists req,
    body = Some req /\
    b = inserted (trimmed_create req) d /\
    auto_increment d <= INT_MAX /\
    rows (snd (handlers.CreateBook body d)) = (rows d ++ [b])%list.
Proof.
  intros Hwf. unfold handlers.CreateBook.
  destruct body as [req|]; [|discriminate].
  destruct (handlers.is_empty _); [discriminate|].
  destruct (handlers.is_empty _); [discriminate|].
  destruct (_ || _); [discriminate|].
  fold (trimmed_create req).
  assert (Hids : Forall (fun x => Book.ID x <> auto_increment d) (rows d)).
  { eapply Forall_impl; [|exact (wf_ids _ Hwf)]. cbn. intros; lia. }
  pose proof (CreateBook_eq (trimmed_create req) d Hids) as Hc.
  cbv zeta in Hc.
  destruct (acceptable (strict d) (CreateBookRequest.Title (trimmed_create req))
            && acceptable (strict d)
                 (CreateBookRequest.Author (trimmed_create req))
            && (auto_increment d <=? INT_MAX)) eqn:E.
  - rewrite Hc. cbn [fst snd]. intros H. injection H as <-.
    apply andb_true_iff in E as [_ E]. apply Z.leb_le in E.
    exists req. repeat split. assumption.
  - destruct (CreateBook_refused _ _ E) as [e He].
    destruct (db.CreateBook (trimmed_create req) d) as [res d'].
    cbn [fst] in He. subst res. discriminate.
Qed.

(** X8.  Identifiers are never given twice: the record of a successful
    creation has an identifier greater than that of every record stored in
    any earlier state, whether that record is still stored or has been
    deleted in between. *)
Theorem X8_identifiers_never_reused (d d' : DB) (old b : Book.t)
    (body : option CreateBookRequest.t) :
  wf d -> In old (rows d) -> reachable d d' ->
  fst (handlers.CreateBook body d') = created b ->
  Book.ID old < Book.ID b.
Proof.
  intros Hwf Hold Hr Hc.
  pose proof (reachable_wf _ _ Hwf Hr) as Hwf'.
  destruct (CreateBook_created _ _ _ Hwf' Hc) as (req & _ & -> & _).
  pose proof (reachable_counter _ _ Hr).
  pose proof (wf_ids _ Hwf) as Hids. rewrite Forall_forall in Hids.
  specialize (Hids _ Hold). cbn [inserted Book.ID]. lia.
Qed.

Lemma X8_identifiers_never_reused_witness :
  Book.ID foo < Book.ID (Book.mk 2 "Foo" "Bar" 2020 true 100 100).
Proof.
  apply (X8_identifiers_never_reused shelf
           (snd (serve (Delete "1") shelf)) foo
           (Book.mk 2 "Foo" "Bar" 2020 true 100 100) (Some foo_request)).
  - wf_by_evaluation.
  - simpl. left. reflexivity.
  - apply reach_step with (d := shelf); [apply reach_start|].
    apply step_request.
  - reflexivity.
Defined.

(** ** Beyond the claims: one request after another *)

(** X9.  A creation that is answered with a record adds this record to the
    table and nothing else: the earlier records are all there, unchanged
    and in their order, the new record comes last with an identifier that
    none of them has, and a get of this identifier right after returns the
    record that the creation returned. *)
Theorem X9_create_then_get (d : DB) (body : option CreateBookRequest.t)
    (b : Book.t) (idStr : string) :
  wf d ->
  fst (handlers.CreateBook body d) = created b ->
  strconv.Atoi idStr = Some (Book.ID b) ->
  let d' := snd (handlers.CreateBook body d) in
  rows d' = (rows d ++ [b])%list /\
  (forall x, In x (rows d) -> Book.ID x <> Book.ID b) /\
  fst (handlers.GetBook idStr d') = get_ok b.
Proof.
  intros Hwf Hc Hid d'.
  destruct (CreateBook_created _ _ _ Hwf Hc) as (req & _ & Hb & _ & Hrows).
  fold d' in Hrows.
  assert (Hfresh : forall x, In x (rows d) -> Book.ID x <> Book.ID b).
  { intros x Hx. pose proof (wf_ids _ Hwf) as Hids.
    rewrite Forall_forall in Hids. specialize (Hids _ Hx).
    rewrite Hb. cbn [inserted Book.ID]. lia. }
  split; [assumption|]. split; [assumption|].
  unfold handlers.GetBook. rewrite Hid, GetBookByID_eq, Hrows.
  rewrite find_id_app.
  - cbn [find]. rewrite Z.eqb_refl. reflexivity.
  - apply find_id_absent. rewrite Forall_forall. exact Hfresh.
Qed.

Lemma X9_create_then_get_witness :
  let d' := snd (handlers.CreateBook (Some foo_request) shelf) in
  rows d' = (rows shelf ++ [Book.mk 2 "Foo" "Bar" 2020 true 100 100])%list /\
  (forall x, In x (rows shelf) -> Book.ID x <> 2) /\
  fst (handlers.GetBook "2" d')
  = get_ok (Book.mk 2 "Foo" "Bar" 2020 true 100 100).
Proof.
  apply (X9_create_then_get shelf (Some foo_request)
           (Book.mk 2 "Foo" "Bar" 2020 true 100 100) "2").
  - wf_by_evaluation.
  - reflexivity.
  - reflexivity.
Defined.

(** The record and the table of an update that is answered with a
    record. *)
Lemma UpdateBook_updated (idStr : string) (body : option UpdateBookRequest.t)
    (d : DB) (b' : Book.t) :
  fst (handlers.UpdateBook idStr body d) = update_ok b' ->
  exists id req b,
    strconv.Atoi idStr = Some id /\ body = Some req /\
    find (fun x => Book.ID x =? id) (rows d) = Some b /\
    ((no_fields req = true /\ b' = b /\
      rows (snd (handlers.UpdateBook idStr body d)) = rows d)
     \/
     (no_fields req = false /\
      b' = updated (store_req (trimmed req)) (clock d) b /\
      rows (snd (handlers.UpdateBook idStr body d))
      = rows_updated (store_req (trimmed req)) (clock d) id (rows d))).
Proof.
  unfold handlers.UpdateBook.
  destruct (strconv.Atoi idStr) as [id|] eqn:Hid; [|discriminate].
  destruct body as [req|]; [|discriminate].
  destruct (handlers.validate_update req) as [m|req'] eqn:Hv; [discriminate|].
  destruct (validate_update_inr _ _ Hv) as [-> _].
  destruct (find (fun x => Book.ID x =? id) (rows d)) as [b|] eqn:Hf.
  - rewrite (UpdateBook_found _ _ _ _ Hf). rewrite no_fields_trimmed.
    destruct (no_fields req) eqn:En.
    + cbn [fst snd]. intros H. injection H as <-.
      exists id, req, b.
      split; [auto|]. split; [auto|]. split; [auto|].
      left. repeat split; try assumption; reflexivity.
    + cbv zeta. destruct (req_acceptable (strict d) (trimmed req));
        cbn [fst snd]; [|discriminate].
      intros H. injection H as <-.
      exists id, req, b.
      split; [auto|]. split; [auto|]. split; [auto|].
      right. repeat split; try assumption; reflexivity.
  - rewrite (UpdateBook_missing _ _ _ Hf). discriminate.
Qed.

Lemma updated_id (req : UpdateBookRequest.t) (now : Time) (b : Book.t) :
  Book.ID (updated req now b) = Book.ID b.
Proof. reflexivity. Qed.

(** X10.  An update that is answered with a record has written exactly
    this record: a get of the same identifier right after returns it, the
    table has the same identifiers in the same order as before, and every
    record of another identifier is untouched. *)
Theorem X10_update_then_get (d : DB) (idStr : string)
    (body : option UpdateBookRequest.t) (b' : Book.t) :
  fst (handlers.UpdateBook idStr body d) = update_ok b' ->
  let d' := snd (handlers.UpdateBook idStr body d) in
  strconv.Atoi idStr = Some (Book.ID b') /\
  fst (handlers.GetBook idStr d') = get_ok b' /\
  map Book.ID (rows d') = map Book.ID (rows d) /\
  (forall x, Book.ID x <> Book.ID b' -> (In x (rows d') <-> In x (rows d))).
Proof.
  intros Hu d'.
  destruct (UpdateBook_updated _ _ _ _ Hu) as (id & req & b & Hid & _ & Hf & H).
  fold d' in H.
  destruct (find_id_eq _ _ _ Hf) as [Hbid _].
  destruct H as [(_ & -> & Hrows)|(_ & -> & Hrows)].
  - rewrite Hbid. split; [assumption|].
    unfold handlers.GetBook. rewrite Hid, GetBookByID_eq, Hrows, Hf.
    repeat split; intros; assumption.
  - rewrite updated_id, Hbid. split; [assumption|].
    split; [|split].
    + unfold handlers.GetBook. rewrite Hid, GetBookByID_eq, Hrows.
      unfold rows_updated.
      rewrite find_id_map by (intros r; destruct (Book.ID r =? id); reflexivity).
      rewrite Hf. cbn [option_map]. apply Z.eqb_eq in Hbid. rewrite Hbid.
      reflexivity.
    + rewrite Hrows. apply rows_updated_ids.
    + intros x Hx. rewrite Hrows, In_rows_updated. split.
      * intros [r [Hr ->]]. destruct (Book.ID r =? id) eqn:E; [|assumption].
        apply Z.eqb_eq in E. rewrite updated_id in Hx. congruence.
      * intros Hin. exists x. split; [assumption|].
        apply Z.eqb_neq in Hx. now rewrite Hx.
Qed.

Lemma X10_update_then_get_witness :
  let d' := snd (handlers.UpdateBook "1" (Some lend_out) (tick 5 shelf)) in
  strconv.Atoi "1" = Some 1 /\
  fst (handlers.GetBook "1" d')
  = get_ok (Book.mk 1 "Foo" "Bar" 2020 false 100 105) /\
  map Book.ID (rows d') = map Book.ID (rows (tick 5 shelf)) /\
  (forall x, Book.ID x <> 1 -> (In x (rows d') <-> In x (rows (tick 5 shelf)))).
Proof.
  apply (X10_update_then_get (tick 5 shelf) "1" (Some lend_out)
           (Book.mk 1 "Foo" "Bar" 2020 false 100 105)).
  reflexivity.
Defined.

Lemma keep_others (l : list Book.t) (id : Z) :
  ~ In id (map Book.ID l) ->
  filter (fun x => negb (Book.ID x =? id)) l = l.
Proof.
  induction l as [|x l IH]; intros H; simpl in *; [reflexivity|].
  destruct (Book.ID x =? id) eqn:E.
  - apply Z.eqb_eq in E. exfalso. apply H. now left.
  - cbn [negb]. rewrite IH; [reflexivity|]. intros Hin. apply H. now right.
Qed.

Lemma count_after_delete (l : list Book.t) (b : Book.t) :
  NoDup (map Book.ID l) -> In b l ->
  count (filter (fun x => negb (Book.ID x =? Book.ID b)) l) = count l - 1.
Proof.
  unfold count. induction l as [|x l IH]; intros Hnd Hin; [contradiction|].
  simpl in Hnd. apply NoDup_cons_iff in Hnd as [Hx Hl].
  cbn [filter]. destruct Hin as [->|Hin].
  - rewrite Z.eqb_refl. cbn [negb].
    rewrite (keep_others l (Book.ID b) Hx). cbn [List.length]. lia.
  - destruct (Book.ID x =? Book.ID b) eqn:E.
    + apply Z.eqb_eq in E. exfalso. apply Hx. rewrite E. now apply in_map.
    + cbn [negb List.length]. specialize (IH Hl Hin). lia.
Qed.

(** X11.  A delete that is answered with success removes the record of
    the identifier and nothing else: a record is stored afterwards exactly
    when it was stored before and has another identifier, and in a
    well-formed table the number of records goes down by one. *)
Theorem X11_delete_removes_only_that (d : DB) (idStr : string) :
  wf d ->
  fst (handlers.DeleteBook idStr d) = deleted ->
  let d' := snd (handlers.DeleteBook idStr d) in
  exists id,
    strconv.Atoi idStr = Some id /\
    (forall x, In x (rows d') <-> In x (rows d) /\ Book.ID x <> id) /\
    count (rows d') = count (rows d) - 1.
Proof.
  intros Hwf. unfold handlers.DeleteBook.
  destruct (strconv.Atoi idStr) as [id|] eqn:Hid; [|discriminate].
  destruct (find (fun x => Book.ID x =? id) (rows d)) as [b|] eqn:Hf.
  - rewrite (DeleteBook_found _ _ _ Hf). cbn [fst snd rows with_rows].
    intros _. exists id. split; [reflexivity|]. split.
    + intros x. rewrite filter_In. rewrite negb_true_iff, Z.eqb_neq.
      reflexivity.
    + destruct (find_id_eq _ _ _ Hf) as [<- Hin].
      apply count_after_delete; [apply (wf_nodup _ Hwf)|assumption].
  - rewrite (DeleteBook_missing _ _ Hf). discriminate.
Qed.

Lemma X11_delete_removes_only_that_witness :
  let d' := snd (handlers.DeleteBook "1" shelf) in
  exists id,
    strconv.Atoi "1" = Some id /\
    (forall x, In x (rows d') <-> In x (rows shelf) /\ Book.ID x <> id) /\
    count (rows d') = count (rows shelf) - 1.
Proof.
  apply (X11_delete_removes_only_that shelf "1").
  - wf_by_evaluation.
  - reflexivity.
Defined.

(** X12.  A get by identifier is answered with a record exactly when the
    table holds this record under the identifier of the request; in a
    well-formed table it cannot return a record of another identifier or a
    record that is not stored. *)
Theorem X12_get_returns_the_stored_record (d : DB) (idStr : string) (id : Z)
    (b : Book.t) :
  wf d ->
  strconv.Atoi idStr = Some id ->
  (fst (handlers.GetBook idStr d) = get_ok b <->
   In b (rows d) /\ Book.ID b = id).
Proof.
  intros Hwf Hid. unfold handlers.GetBook. rewrite Hid, GetBookByID_eq.
  split.
  - destruct (find _ (rows d)) as [x|] eqn:Hf; cbn [fst]; [|discriminate].
    intros H. injection H as <-.
    destruct (find_id_eq _ _ _ Hf). auto.
  - intros [Hin <-]. rewrite (find_by_id _ _ (wf_nodup _ Hwf) Hin).
    reflexivity.
Qed.

Lemma X12_get_returns_the_stored_record_witness :
  fst (handlers.GetBook "1" shelf) = get_ok foo <->
  In foo (rows shelf) /\ Book.ID foo = 1.
Proof.
  apply (X12_get_returns_the_stored_record shelf "1" 1 foo).
  - wf_by_evaluation.
  - reflexivity.
Defined.

Lemma valid_year_false (y : Z) :
  valid_year y = negb ((y <? 1000) || (2100 <? y)).
Proof.
  unfold valid_year.
  destruct (y <? 1000) eqn:E1; destruct (2100 <? y) eqn:E2;
    destruct (1000 <=? y) eqn:E3; destruct (y <=? 2100) eqn:E4;
    try reflexivity; exfalso;
    rewrite ?Z.ltb_lt, ?Z.ltb_ge, ?Z.leb_le, ?Z.leb_gt in *; lia.
Qed.


Lemma validate_update_checked (req : UpdateBookRequest.t) :
  checked_update req
  = match handlers.validate_update req with
    | inl _ => false
    | inr _ => true
    end.
Proof.
  unfold checked_update, handlers.validate_update, not_blank.
  destruct req as [t a y v]. cbn [UpdateBookRequest.Title
    UpdateBookRequest.Author UpdateBookRequest.PublishedYear
    UpdateBookRequest.Available].
  destruct t as [t|]; cbn [when_supplied];
    [destruct (handlers.is_empty (strings.TrimSpace t)); [reflexivity|]|];
    (destruct a as [a|]; cbn [when_supplied negb andb];
       [destruct (handlers.is_empty (strings.TrimSpace a)); [reflexivity|]|]);
    (destruct y as [y|]; cbn [when_supplied negb andb]; [|reflexivity]);
    rewrite valid_year_false; destruct (_ || _); reflexivity.
Qed.


(** ** Beyond the claims: pages *)

Lemma count_limit {A : Type} (n : Z) (l : list A) :
  0 <= n -> count (limit n l) <= n /\ count (limit n l) <= count l.
Proof.
  unfold count. revert n.
  induction l as [|x l IH]; intros n Hn; simpl; [lia|].
  destruct (n <=? 0) eqn:E; simpl; [lia|].
  apply Z.leb_gt in E. specialize (IH (n - 1) ltac:(lia)). lia.
Qed.

Lemma count_offset {A : Type} (n : Z) (l : list A) :
  count (offset n l) <= count l.
Proof.
  unfold count. revert n.
  induction l as [|x l IH]; intros n; simpl; [lia|].
  destruct (n <=? 0); simpl; [lia|]. specialize (IH (n - 1)). lia.
Qed.

Lemma limit_nonpositive {A : Type} (n : Z) (l : list A) :
  n <= 0 -> limit n l = [].
Proof.
  intros H. destruct l as [|x l]; [reflexivity|]. simpl.
  apply Z.leb_le in H. now rewrite H.
Qed.

Lemma limit_then_next {A : Type} (a b : Z) (l : list A) :
  0 <= a -> 0 <= b ->
  (limit a l ++ limit b (offset a l))%list = limit (a + b) l.
Proof.
  revert a. induction l as [|x l IH]; intros a Ha Hb; [reflexivity|].
  cbn [limit offset].
  destruct (a <=? 0) eqn:Ea.
  - apply Z.leb_le in Ea. replace a with 0 by lia. reflexivity.
  - apply Z.leb_gt in Ea.
    destruct (a + b <=? 0) eqn:Eab; [apply Z.leb_le in Eab; lia|].
    cbn [app]. f_equal.
    replace (a + b - 1) with ((a - 1) + b) by lia.
    apply IH; lia.
Qed.

Lemma limit_all_of {A : Type} (n : Z) (l : list A) :
  count l <= n -> limit n l = l.
Proof.
  unfold count. revert n.
  induction l as [|y l IH]; intros n H; simpl in *; [reflexivity|].
  destruct (n <=? 0) eqn:E; [apply Z.leb_le in E; lia|].
  f_equal. apply IH. lia.
Qed.

Lemma page_offset_exact (page lim : Z) :
  1 <= page -> 1 <= lim -> (page - 1) * lim <= GoInt.max_int ->
  page_offset page lim = (page - 1) * lim.
Proof.
  intros Hp Hl Hmax.
  unfold page_offset, GoInt.mul, GoInt.sub, GoInt.wrap, GoInt.max_int in *.
  assert (E1 : (page - 1 + 2 ^ 63) mod 2 ^ 64 - 2 ^ 63 = page - 1).
  { rewrite Z.mod_small; nia. }
  rewrite E1. rewrite Z.mod_small; nia.
Qed.

Lemma GetBooks_books (page lim : Z) (d : DB) :
  0 <= lim -> 0 <= page_offset page lim ->
  fst (db.GetBooks page lim d) = Ok (page_slice page lim (rows d), count (rows d)).
Proof.
  intros Hl Ho. unfold db.GetBooks, bind_or, QueryRowCount, Query, page_of, ret.
  fold (page_offset page lim).
  apply Z.ltb_ge in Hl. apply Z.ltb_ge in Ho. cbn [rows received].
  rewrite Hl, Ho. reflexivity.
Qed.

Lemma SearchBooks_books (q : string) (page lim : Z) (d : DB) :
  0 <= lim -> 0 <= page_offset page lim ->
  fst (db.SearchBooks q page lim d)
  = Ok (page_slice page lim
          (filter (title_or_author_like ("%" ++ q ++ "%") ("%" ++ q ++ "%"))
             (rows d)),
        count (filter (title_or_author_like ("%" ++ q ++ "%") ("%" ++ q ++ "%"))
                 (rows d))).
Proof.
  intros Hl Ho. unfold db.SearchBooks, bind_or, QueryRowCount, Query, page_of, ret.
  fold (page_offset page lim).
  apply Z.ltb_ge in Hl. apply Z.ltb_ge in Ho. cbn [rows received].
  rewrite Hl, Ho. reflexivity.
Qed.

(** The pages 1 to [n] of a list, one after the other, are its first
    [n * lim] elements. *)
Lemma pages_concat (lim : Z) (l : list Book.t) (n : nat) :
  1 <= lim <= 100 -> Z.of_nat n <= 2 ^ 31 ->
  List.concat (map (fun p => page_slice (Z.of_nat p) lim l) (seq 1 n))
  = limit (Z.of_nat n * lim) (order_by_created_at_desc l).
Proof.
  intros Hl. induction n as [|n IH]; intros Hn.
  - cbn [seq map List.concat]. rewrite limit_nonpositive; [reflexivity|lia].
  - rewrite seq_S, map_app, concat_app, IH by lia.
    cbn [map List.concat]. rewrite app_nil_r.
    unfold page_slice.
    rewrite page_offset_exact by (unfold GoInt.max_int; nia).
    replace (Z.of_nat (1 + n) - 1) with (Z.of_nat n) by lia.
    rewrite limit_then_next by nia. f_equal. lia.
Qed.

(** X15.  A page of records never has more records than the limit in
    effect, which lies between 1 and 100, nor more than the total that the
    answer reports; the page number in effect is at least 1, and every
    record of the page is a record of the table. *)
Theorem X15_page_bounds (pageStr limitStr q : string) (d : DB)
    (r : PaginatedResponse.t) :
  handlers.Body (fst (handlers.GetBooks pageStr limitStr q d))
  = handlers.Paginated r ->
  1 <= Pagination.Page (PaginatedResponse.Pagination r) /\
  1 <= Pagination.Limit (PaginatedResponse.Pagination r) <= 100 /\
  count (PaginatedResponse.Data r)
  <= Pagination.Limit (PaginatedResponse.Pagination r) /\
  count (PaginatedResponse.Data r)
  <= Pagination.Total (PaginatedResponse.Pagination r) /\
  Pagination.Total (PaginatedResponse.Pagination r) <= count (rows d) /\
  (forall b, In b (PaginatedResponse.Data r) -> In b (rows d)).
Proof.
  rewrite GetBooks_response.
  destruct (page_offset _ _ <? 0); [discriminate|].
  unfold list_ok. cbn [handlers.Body handlers.sendJSONResponse].
  intros H. injection H as <-.
  cbn [PaginatedResponse.Data PaginatedResponse.Pagination Pagination.Page
       Pagination.Limit Pagination.Total].
  pose proof (effective_page_pos pageStr).
  pose proof (effective_limit_range limitStr) as Hl.
  pose proof (count_selected (strings.TrimSpace q) (rows d)) as Hs.
  set (sel := selected (strings.TrimSpace q) (rows d)) in *.
  assert (Hc : count (page_slice (effective_page pageStr)
                        (effective_limit limitStr) sel)
               <= effective_limit limitStr /\
               count (page_slice (effective_page pageStr)
                        (effective_limit limitStr) sel) <= count sel).
  { unfold page_slice.
    destruct (count_limit (effective_limit limitStr)
                (offset (page_offset (effective_page pageStr)
                           (effective_limit limitStr))
                   (order_by_created_at_desc sel)) ltac:(lia)) as [H1 H2].
    split; [exact H1|].
    pose proof (count_offset (page_offset (effective_page pageStr)
                                (effective_limit limitStr))
                  (order_by_created_at_desc sel)).
    rewrite count_order_by in *. lia. }
  repeat split; try lia.
  intros b Hb. apply In_page_slice in Hb. subst sel. unfold selected in Hb.
  destruct (handlers.is_empty _); [assumption|].
  apply filter_In in Hb. tauto.
Qed.

Lemma X15_page_bounds_witness :
  1 <= 1 /\ 1 <= 7 <= 100 /\
  count [foo] <= 7 /\ count [foo] <= 1 /\ 1 <= count (rows shelf) /\
  (forall b, In b [foo] -> In b (rows shelf)).
Proof.
  apply (X15_page_bounds "1" "7" "" shelf
           (PaginatedResponse.mk true [foo] (Pagination.mk 1 7 1 1) "")).
  reflexivity.
Defined.





(** ** Beyond the claims: trimmed text *)

Lemma trim_left_head (l : list ascii) :
  match strings.trim_left l with
  | [] => True
  | c :: _ => strings.is_space c = false
  end.
Proof.
  induction l as [|c l IH]; simpl; [exact I|].
  destruct (strings.is_space c) eqn:E; [exact IH|exact E].
Qed.

Lemma trim_left_again (l : list ascii) :
  strings.trim_left (strings.trim_left l) = strings.trim_left l.
Proof.
  pose proof (trim_left_head l) as H.
  destruct (strings.trim_left l) as [|c m]; [reflexivity|].
  simpl. now rewrite H.
Qed.

Lemma trim_left_last (x : list ascii) (c : ascii) :
  strings.is_space c = false ->
  strings.trim_left (x ++ [c]) = (strings.trim_left x ++ [c])%list.
Proof.
  intros Hc. induction x as [|y x IH]; simpl.
  - now rewrite Hc.
  - destruct (strings.is_space y); [exact IH|reflexivity].
Qed.

Lemma trim_right_head (c : ascii) (m : list ascii) :
  strings.is_space c = false ->
  strings.trim_right (c :: m) = c :: strings.trim_right m.
Proof.
  intros Hc. unfold strings.trim_right. cbn [rev].
  rewrite (trim_left_last _ _ Hc), rev_app_distr. reflexivity.
Qed.

Lemma trim_right_again (l : list ascii) :
  strings.trim_right (strings.trim_right l) = strings.trim_right l.
Proof.
  unfold strings.trim_right. now rewrite rev_involutive, trim_left_again.
Qed.

Lemma trim_both_fixed (l : list ascii) :
  let t := strings.trim_right (strings.trim_left l) in
  strings.trim_right (strings.trim_left t) = t.
Proof.
  cbv zeta. pose proof (trim_left_head l) as H.
  destruct (strings.trim_left l) as [|c m]; [reflexivity|].
  rewrite (trim_right_head _ _ H).
  cbn [strings.trim_left]. rewrite H.
  rewrite <- (trim_right_head _ _ H). apply trim_right_again.
Qed.

(** Trimming a trimmed string changes nothing. *)
Lemma TrimSpace_again (s : string) :
  strings.TrimSpace (strings.TrimSpace s) = strings.TrimSpace s.
Proof.
  unfold strings.TrimSpace.
  rewrite list_ascii_of_string_of_list_ascii.
  now rewrite trim_both_fixed.
Qed.


Lemma acceptable_strict (s : string) :
  acceptable true s = true -> store s = s.
Proof.
  unfold acceptable, store. rewrite orb_false_r. now intros ->.
Qed.

Lemma change_text_trimmed (r : Request) (d d' : DB) :
  strict d = true ->
  change r d d' ->
  Forall text_trimmed (rows d) -> Forall text_trimmed (rows d').
Proof.
  intros Hstrict Hc H.
  destruct Hc as [r d d' Hs
                 |req d d' Ht Hau Hy Hat Haa Hmax Hr Ha Hcl Hm
                 |idStr id req b d d' Hid Hv Hf Hn Hacc Hr Ha Hcl Hm
                 |idStr id b d d' Hid Hf Hr Ha Hcl Hm].
  - destruct Hs as [-> _]. assumption.
  - rewrite Hr. apply Forall_app. split; [assumption|].
    constructor; [|constructor].
    rewrite Hstrict in Hat, Haa.
    split; unfold trimmed_text;
      cbn [inserted trimmed_create Book.Title Book.Author
           CreateBookRequest.Title CreateBookRequest.Author];
      rewrite acceptable_strict by assumption; apply TrimSpace_again.
  - rewrite Hr. apply Forall_rows_updated; [|assumption].
    intros x [Hxt Hxa]. rewrite Hstrict in Hacc.
    unfold req_acceptable in Hacc. apply andb_true_iff in Hacc as [At Aa].
    destruct req as [t a y v].
    split; unfold trimmed_text in *;
      cbn [updated store_req trimmed Book.Title Book.Author
           UpdateBookRequest.Title UpdateBookRequest.Author] in *.
    + destruct t as [t|]; cbn [option_map supplied] in *; [|assumption].
      rewrite acceptable_strict by assumption. apply TrimSpace_again.
    + destruct a as [a|]; cbn [option_map supplied] in *; [|assumption].
      rewrite acceptable_strict by assumption. apply TrimSpace_again.
  - rewrite Hr. now apply Forall_filter.
Qed.



(** ** Beyond the claims: the text of the UPDATE statement *)

(** X20.  The UPDATE statement that is executed has one placeholder for
    every argument it is given: one for each supplied field and one for
    the identifier.  The statement formatted first, which is discarded,
    is the same text when one or two fields are supplied and has too few
    placeholders when three or four are. *)
Theorem X20_update_statement_text (req : UpdateBookRequest.t) (id : Z) :
  no_fields req = false ->
  let updates := map fragment (fst (db.build_update req)) in
  let args := (snd (db.build_update req) ++ [VInt id])%list in
  placeholders (update_query updates) = List.length args /\
  ((List.length updates <= 2)%nat -> first_query updates = update_query updates) /\
  ((3 <= List.length updates)%nat ->
   (placeholders (first_query updates) < List.length args)%nat).
Proof.
  destruct req as [[t|] [a|] [y|] [v|]]; intros Hn; try discriminate;
    cbv zeta; (split; [vm_compute; reflexivity|]);
    (split; [intros H; vm_compute in H |- *; first [reflexivity|lia]
            |intros H; vm_compute in H |- *; lia]).
Qed.

Lemma X20_update_statement_text_witness :
  placeholders
    (update_query ["title = ?"; "published_year = ?"; "available = ?"])
  = 4%nat /\
  ((3 <= 2)%nat ->
   first_query ["title = ?"; "published_year = ?"; "available = ?"]
   = update_query ["title = ?"; "published_year = ?"; "available = ?"]) /\
  ((3 <= 3)%nat ->
   (placeholders
      (first_query ["title = ?"; "published_year = ?"; "available = ?"])
    < 4)%nat).
Proof.
  apply (X20_update_statement_text
           (UpdateBookRequest.mk (Some "T") None (Some 2001) (Some true)) 1).
  reflexivity.
Defined.

(** ** Beyond the claims: letter case in a search *)

Lemma to_lower_again (c : ascii) : to_lower (to_lower c) = to_lower c.
Proof. destruct c as [[] [] [] [] [] [] [] []]; reflexivity. Qed.

Lemma to_lower_backslash (c : ascii) :
  Ascii.eqb (to_lower c) "\" = Ascii.eqb c "\".
Proof. destruct c as [[] [] [] [] [] [] [] []]; reflexivity. Qed.

Lemma to_lower_percent (c : ascii) :
  Ascii.eqb (to_lower c) "%" = Ascii.eqb c "%".
Proof. destruct c as [[] [] [] [] [] [] [] []]; reflexivity. Qed.

Lemma to_lower_underscore (c : ascii) :
  Ascii.eqb (to_lower c) "_" = Ascii.eqb c "_".
Proof. destruct c as [[] [] [] [] [] [] [] []]; reflexivity. Qed.

Lemma compile_cons (c : ascii) (p : list ascii) :
  compile (c :: p)
  = if Ascii.eqb c "\" then
      match p with
      | [] => [Lit c]
      | d :: p' => Lit d :: compile p'
      end
    else if Ascii.eqb c "%" then Any :: compile p
    else if Ascii.eqb c "_" then One :: compile p
    else Lit c :: compile p.
Proof. reflexivity. Qed.

Lemma compile_lower (p : list ascii) :
  compile (map to_lower p) = map lower_tok (compile p) /\
  forall c, compile (map to_lower (c :: p)) = map lower_tok (compile (c :: p)).
Proof.
  induction p as [|d p [IH1 IH2]].
  - split; [reflexivity|]. intros c. cbn [map]. rewrite !compile_cons.
    rewrite to_lower_backslash, to_lower_percent, to_lower_underscore.
    destruct (Ascii.eqb c "\"); [reflexivity|].
    destruct (Ascii.eqb c "%"); [reflexivity|].
    destruct (Ascii.eqb c "_"); reflexivity.
  - split; [apply IH2|]. intros c.
    specialize (IH2 d). cbn [map] in IH2.
    change (map to_lower (c :: d :: p))
      with (to_lower c :: map to_lower (d :: p)).
    rewrite (compile_cons (to_lower c)), (compile_cons c).
    rewrite to_lower_backslash, to_lower_percent, to_lower_underscore.
    destruct (Ascii.eqb c "\").
    + cbn [map lower_tok]. now rewrite IH1.
    + destruct (Ascii.eqb c "%"); [cbn [map lower_tok]; now rewrite IH2|].
      destruct (Ascii.eqb c "_"); cbn [map lower_tok]; now rewrite IH2.
Qed.

Lemma matches_lower (p : list tok) (s : list ascii) :
  matches (map lower_tok p) s = matches p s.
Proof.
  revert s. induction p as [|t p IH]; intros s; [reflexivity|].
  destruct t as [| |c]; cbn [map lower_tok].
  - induction s as [|d s IHs].
    + rewrite !matches_any, IH. reflexivity.
    + rewrite (matches_any (map lower_tok p)), (matches_any p), IH, IHs.
      reflexivity.
  - destruct s as [|d s]; [reflexivity|]. cbn [matches]. apply IH.
  - destruct s as [|d s]; [reflexivity|]. cbn [matches].
    rewrite IH. unfold ci_eqb. now rewrite to_lower_again.
Qed.

Lemma like_lower (s pat : string) : like s (lower pat) = like s pat.
Proof.
  unfold like, lower. rewrite list_ascii_of_string_of_list_ascii.
  destruct (compile_lower (list_ascii_of_string pat)) as [-> _].
  apply matches_lower.
Qed.

Lemma lower_app (a b : string) : lower (a ++ b) = lower a ++ lower b.
Proof.
  unfold lower. induction a as [|c a IH]; [reflexivity|].
  cbn [String.append list_ascii_of_string map string_of_list_ascii].
  now rewrite IH.
Qed.



(** ** Beyond the claims: updates and creations in a row *)

(** A valid update of a record that exists, with the table it leaves. *)
Lemma UpdateBook_valid (d : DB) (idStr : string) (id : Z)
    (req : UpdateBookRequest.t) (b : Book.t) :
  strconv.Atoi idStr = Some id ->
  valid_update req = true ->
  find (fun x => Book.ID x =? id) (rows d) = Some b ->
  let b1 := if no_fields req then b else updated (trimmed req) (clock d) b in
  let d1 := snd (handlers.UpdateBook idStr (Some req) d) in
  fst (handlers.UpdateBook idStr (Some req) d) = update_ok b1 /\
  rows d1 = (if no_fields req then rows d
             else rows_updated (trimmed req) (clock d) id (rows d)) /\
  clock d1 = clock d /\ strict d1 = strict d /\
  find (fun x => Book.ID x =? id) (rows d1) = Some b1.
Proof.
  intros Hid Hv Hf b1 d1. subst b1 d1.
  pose proof (validate_update_valid _ Hv) as Hval.
  destruct (valid_update_stored (strict d) _ Hv) as [Hacc Hst].
  unfold handlers.UpdateBook. rewrite Hid, Hval.
  rewrite (UpdateBook_found _ _ _ _ Hf).
  rewrite no_fields_trimmed, Hacc, Hst.
  destruct (no_fields req); cbn [fst snd rows clock strict received with_rows].
  - repeat split. exact Hf.
  - repeat split. unfold rows_updated.
    rewrite find_id_map by (intros r; destruct (Book.ID r =? id); reflexivity).
    rewrite Hf. cbn [option_map].
    destruct (find_id_eq _ _ _ Hf) as [Hb _]. apply Z.eqb_eq in Hb.
    now rewrite Hb.
Qed.

Lemma updated_twice (req : UpdateBookRequest.t) (now : Time) (b : Book.t) :
  updated req now (updated req now b) = updated req now b.
Proof. destruct req as [[t|] [a|] [y|] [v|]]; reflexivity. Qed.

Lemma rows_updated_twice (req : UpdateBookRequest.t) (now : Time) (id : Z)
    (l : list Book.t) :
  rows_updated req now id (rows_updated req now id l) = rows_updated req now id l.
Proof.
  unfold rows_updated. rewrite map_map. apply map_ext. intros r.
  destruct (Book.ID r =? id) eqn:E.
  - rewrite updated_id, E. apply updated_twice.
  - now rewrite E.
Qed.

(** X22.  An update is idempotent: the same valid update sent a second
    time, within the same second, is answered with the same record and
    leaves the table as the first one left it. *)
Theorem X22_update_idempotent (d : DB) (idStr : string) (b : Book.t)
    (req : UpdateBookRequest.t) :
  wf d ->
  strconv.Atoi idStr = Some (Book.ID b) ->
  In b (rows d) ->
  valid_update req = true ->
  let d1 := snd (handlers.UpdateBook idStr (Some req) d) in
  let d2 := snd (handlers.UpdateBook idStr (Some req) d1) in
  fst (handlers.UpdateBook idStr (Some req) d1)
  = fst (handlers.UpdateBook idStr (Some req) d) /\
  rows d2 = rows d1.
Proof.
  intros Hwf Hid Hin Hv d1 d2.
  pose proof (find_by_id _ _ (wf_nodup _ Hwf) Hin) as Hf.
  destruct (UpdateBook_valid d idStr _ req b Hid Hv Hf)
    as (Hr1 & Hrows1 & Hc1 & _ & Hf1).
  fold d1 in Hrows1, Hc1, Hf1.
  destruct (UpdateBook_valid d1 idStr _ req _ Hid Hv Hf1)
    as (Hr2 & Hrows2 & _).
  fold d2 in Hrows2. rewrite Hr1, Hr2, Hrows2, Hc1.
  destruct (no_fields req); [split; reflexivity|].
  rewrite updated_twice. split; [reflexivity|].
  rewrite Hrows1. apply rows_updated_twice.
Qed.

Lemma X22_update_idempotent_witness :
  let d1 := snd (handlers.UpdateBook "1" (Some lend_out) (tick 5 shelf)) in
  let d2 := snd (handlers.UpdateBook "1" (Some lend_out) d1) in
  fst (handlers.UpdateBook "1" (Some lend_out) d1)
  = fst (handlers.UpdateBook "1" (Some lend_out) (tick 5 shelf)) /\
  rows d2 = rows d1.
Proof.
  apply (X22_update_idempotent (tick 5 shelf) "1" foo lend_out).
  - wf_by_evaluation.
  - reflexivity.
  - simpl. left. reflexivity.
  - reflexivity.
Defined.



(** A valid creation on a table with an identifier left, with the table it
    leaves. *)
Lemma CreateBook_valid (d : DB) (req : CreateBookRequest.t) :
  wf d ->
  auto_increment d <= INT_MAX ->
  valid_create req = true ->
  let b :=
    Book.mk (auto_increment d)
      (strings.TrimSpace (CreateBookRequest.Title req))
      (strings.TrimSpace (CreateBookRequest.Author req))
      (CreateBookRequest.PublishedYear req)
      (supplied (CreateBookRequest.Available req) true)
      (clock d) (clock d) in
  let d1 := snd (handlers.CreateBook (Some req) d) in
  fst (handlers.CreateBook (Some req) d) = created b /\
  rows d1 = (rows d ++ [b])%list /\
  auto_increment d1 = auto_increment d + 1 /\
  clock d1 = clock d /\
  wf d1.
Proof.
  intros Hwf Hmax Hv b d1.
  assert (Hwf1 : wf d1).
  { apply (effect_wf d); [apply CreateBook_effect|assumption]. }
  subst d1.
  unfold valid_create in Hv. apply andb_true_iff in Hv as [Hv Hy].
  apply andb_true_iff in Hv as [Ht Ha].
  apply valid_text_spec in Ht as [Ht Hlt].
  apply valid_text_spec in Ha as [Ha Hla].
  apply valid_year_spec in Hy.
  assert (Hids : Forall (fun x => Book.ID x <> auto_increment d) (rows d)).
  { eapply Forall_impl; [|exact (wf_ids _ Hwf)]. cbn. intros; lia. }
  pose proof (CreateBook_eq (trimmed_create req) d Hids) as Hc.
  cbv zeta in Hc.
  cbn [trimmed_create CreateBookRequest.Title CreateBookRequest.Author
       CreateBookRequest.PublishedYear CreateBookRequest.Available] in Hc.
  rewrite !acceptable_fits in Hc by assumption.
  apply Z.leb_le in Hmax. rewrite Hmax in Hc. cbn [andb] in Hc.
  revert Hwf1. unfold handlers.CreateBook. rewrite Ht, Ha, Hy.
  fold (trimmed_create req). rewrite Hc. cbn [fst snd]. intros Hwf1.
  assert (Hb : inserted (trimmed_create req) d = b).
  { subst b. unfold inserted.
    cbn [trimmed_create CreateBookRequest.Title CreateBookRequest.Author
         CreateBookRequest.PublishedYear CreateBookRequest.Available].
    now rewrite !store_fits by assumption. }
  rewrite Hb in Hwf1 |- *.
  split; [reflexivity|]. split; [reflexivity|]. split; [reflexivity|].
  split; [reflexivity|exact Hwf1].
Qed.



(** ** Beyond the claims: the service on its sample data *)

Lemma initialised_rows (is_strict : bool) (now : Time) :
  rows (initialised is_strict now)
  = map (fun p =>
           let '(i, (t, a, y, v)) := p in Book.mk i t a y v now now)
      (combine [1; 2; 3; 4; 5; 6; 7; 8; 9; 10] sample_books) /\
  auto_increment (initialised is_strict now) = 11 /\
  clock (initialised is_strict now) = now /\
  strict (initialised is_strict now) = is_strict.
Proof. destruct is_strict; repeat split. Qed.

Lemma initialised_wf (is_strict : bool) (now : Time) :
  wf (initialised is_strict now).
Proof.
  destruct (initialised_rows is_strict now) as (Hr & Ha & Hc & _).
  constructor; rewrite ?Hr, ?Ha, ?Hc.
  - cbn. repeat (constructor; [cbn; intuition discriminate|]). constructor.
  - cbn. repeat (constructor; [cbn; lia|]). constructor.
  - unfold INT_MAX. lia.
  - cbn. lia.
  - cbn. repeat (constructor; [cbn; lia|]). constructor.
Qed.

Lemma initialised_text_ok (is_strict : bool) (now : Time) :
  Forall text_ok (rows (initialised is_strict now)) /\
  Forall year_ok (rows (initialised is_strict now)).
Proof.
  destruct (initialised_rows is_strict now) as (Hr & _).
  rewrite Hr. split.
  - cbn. repeat (constructor; [split; cbn; lia|]). constructor.
  - cbn. repeat (constructor; [unfold year_ok; cbn; lia|]). constructor.
Qed.



(** ** Beyond the claims: the last page and the statements of a request *)

Lemma offset_nonempty {A : Type} (n : Z) (l : list A) :
  0 <= n -> (offset n l <> [] <-> n < count l).
Proof.
  unfold count. revert n.
  induction l as [|x l IH]; intros n Hn; simpl.
  - split; [congruence|lia].
  - destruct (n <=? 0) eqn:E.
    + apply Z.leb_le in E. split; [lia|discriminate].
    + apply Z.leb_gt in E. rewrite (IH (n - 1)) by lia. lia.
Qed.

Lemma limit_nonempty {A : Type} (n : Z) (l : list A) :
  1 <= n -> (limit n l <> [] <-> l <> []).
Proof.
  intros Hn. destruct l as [|x l]; simpl; [reflexivity|].
  destruct (n <=? 0) eqn:E; [apply Z.leb_le in E; lia|].
  split; discriminate.
Qed.



Ltac sent_counted :=
  split; [reflexivity|]; split; [cbn; lia|unfold writes; cbn; lia].

(** X27.  No request sends more than three statements to the engine, and
    none sends more than one write: a creation sends its INSERT and one
    SELECT, an update one SELECT and, when it writes, the UPDATE and a
    second SELECT, a delete one SELECT and, when the record exists, the
    DELETE. *)
Theorem X27_statements_of_a_request (r : Request) (d : DB) :
  exists sent,
    log (snd (serve r d)) = (sent ++ log d)%list /\
    (List.length sent <= 3)%nat /\
    (writes sent <= 1)%nat.
Proof.
  destruct r as [p l q|i|body|i body|i]; cbn [serve].
  - rewrite GetBooks_state.
    destruct (handlers.is_empty _); eexists [_; _]; sent_counted.
  - unfold handlers.GetBook.
    destruct (strconv.Atoi i) as [id|];
      [|exists []; sent_counted].
    rewrite GetBookByID_eq.
    destruct (find _ (rows d)); eexists [_]; sent_counted.
  - unfold handlers.CreateBook.
    destruct body as [req|]; [|exists []; sent_counted].
    destruct (handlers.is_empty _); [exists []; sent_counted|].
    destruct (handlers.is_empty _); [exists []; sent_counted|].
    destruct (_ || _); [exists []; sent_counted|].
    fold (trimmed_create req).
    pose proof (CreateBook_state (trimmed_create req) d) as Hs.
    destruct (db.CreateBook (trimmed_create req) d) as [[book|e] d'];
      cbn [snd] in *; subst d';
      destruct (_ && _ && _);
      first [eexists [_; _]; sent_counted
            |eexists [_]; sent_counted].
  - unfold handlers.UpdateBook.
    destruct (strconv.Atoi i) as [id|];
      [|exists []; sent_counted].
    destruct body as [req|]; [|exists []; sent_counted].
    destruct (handlers.validate_update req) as [m|req'];
      [exists []; sent_counted|].
    destruct (find (fun x => Book.ID x =? id) (rows d)) as [b|] eqn:Hf.
    + rewrite (UpdateBook_found _ _ _ _ Hf).
      destruct (no_fields req'); [eexists [_]; sent_counted|].
      cbv zeta. destruct (req_acceptable (strict d) req');
        first [eexists [_; _; _]; sent_counted
              |eexists [_; _]; sent_counted].
    + rewrite (UpdateBook_missing _ _ _ Hf).
      eexists [_]; sent_counted.
  - unfold handlers.DeleteBook.
    destruct (strconv.Atoi i) as [id|];
      [|exists []; sent_counted].
    destruct (find (fun x => Book.ID x =? id) (rows d)) as [b|] eqn:Hf.
    + rewrite (DeleteBook_found _ _ _ Hf).
      eexists [_; _]; sent_counted.
    + rewrite (DeleteBook_missing _ _ Hf).
      eexists [_]; sent_counted.
Qed.
